(** * Partition-table tools of InkWatchy: a shallow embedding

    Two scripts are embedded here:
    - [cleanPartition.py] (module [Eraser]): resolves a partition name to a
      byte range by walking the rows of a partition table, then zero-fills
      that range of a binary image through [dd];
    - [generatePartTable.py] (module [Generator]): derives the sizes of the
      application and filesystem partitions from the firmware size and the
      flash capacity and writes the table.

    Python integers are unbounded, so they are [Z]; the bit operations are
    [Z.land] and [Z.lnot], which agree with Python's two's-complement
    reading of negative integers.  Python floats are IEEE-754 binary64 and
    are computed with [SpecFloat] at precision 53 and maximal exponent
    1024. *)

From Stdlib Require Import ZArith Lia Bool Ascii String List.
From Stdlib Require Import Strings.Byte.
From Stdlib Require Import Floats.SpecFloat.
From Stdlib Require DecimalString HexadecimalString HexadecimalPos.
From stdpp Require Import base option list gmap strings pretty.

Local Open Scope Z_scope.
Local Open Scope string_scope.

(** ** Python values and exceptions *)

Module Py.

(** The exceptions the two scripts can raise. *)
Inductive exception :=
| ValueError (msg : string)
| KeyError (key : string)
| OverflowError (msg : string)
| ZeroDivisionError (msg : string)
| StopIteration
| FileNotFoundError (path : string).

Inductive result (A : Type) :=
| Ok (a : A)
| Raise (e : exception).
Arguments Ok {A} a.
Arguments Raise {A} e.

(** Sequencing stops at the first exception; the notation
    [x ← r; k] is stdpp's. *)
#[global] Instance result_ret : MRet result := fun A a => Ok a.
#[global] Instance result_bind : MBind result := fun A B k r =>
  match r with
  | Ok a => k a
  | Raise e => Raise e
  end.

(** [d[key]] on a dictionary with string keys. *)
Definition getitem {V} (d : gmap string V) (key : string) : result V :=
  match d !! key with
  | Some v => Ok v
  | None => Raise (KeyError key)
  end.

(** Truth value of a string: only the empty string is false. *)
Definition truthy (s : string) : bool :=
  match s with
  | EmptyString => false
  | String _ _ => true
  end.

(** *** [int(s, 16)] *)

Definition is_space (c : ascii) : bool :=
  match c with
  | " " | "009" | "010" | "011" | "012" | "013" => true
  | _ => false
  end%char.

(** The value of a digit of base 16, from the code of the character:
    [0-9], [a-f] and [A-F]. *)
Definition digit_value (c : ascii) : option Z :=
  let code := Z.of_nat (nat_of_ascii c) in
  if (48 <=? code)%Z && (code <=? 57)%Z then Some (code - 48)
  else if (97 <=? code)%Z && (code <=? 102)%Z then Some (code - 87)
  else if (65 <=? code)%Z && (code <=? 70)%Z then Some (code - 55)
  else None.

Fixpoint lstrip (cs : list ascii) : list ascii :=
  match cs with
  | c :: cs' => if is_space c then lstrip cs' else cs
  | [] => []
  end.

Definition strip (cs : list ascii) : list ascii :=
  rev (lstrip (rev (lstrip cs))).

(** The digits of the literal, most significant first; a single
    underscore may separate two digits; [prev] tells that the previous
    character was an underscore. *)
Fixpoint scan_digits (acc : Z) (prev : bool) (cs : list ascii) : option Z :=
  match cs with
  | [] => if prev then None else Some acc
  | c :: cs' =>
      if Ascii.eqb c "_" then
        if prev then None else scan_digits acc true cs'
      else
        match digit_value c with
        | Some d => scan_digits (16 * acc + d) false cs'
        | None => None
        end
  end.

(** After the sign: an optional [0x] or [0X], then one optional
    underscore, then at least one digit. *)
Definition scan_magnitude (cs : list ascii) : option Z :=
  let body :=
    match cs with
    | "0"%char :: x :: rest =>
        if Ascii.eqb x "x" || Ascii.eqb x "X" then
          match rest with
          | "_"%char :: rest' => rest'
          | _ => rest
          end
        else cs
    | _ => cs
    end in
  match body with
  | [] => None
  | c :: _ => if Ascii.eqb c "_" then None else scan_digits 0 false body
  end.

Definition scan_signed (cs : list ascii) : option Z :=
  match cs with
  | "+"%char :: cs' => scan_magnitude cs'
  | "-"%char :: cs' => Z.opp <$> scan_magnitude cs'
  | _ => scan_magnitude cs
  end.

(** The text of the error is the one CPython prints, with the literal
    between single quotes. *)
Definition int16 (s : string) : result Z :=
  match scan_signed (strip (list_ascii_of_string s)) with
  | Some n => Ok n
  | None =>
      Raise (ValueError ("invalid literal for int() with base 16: '" ++ s ++ "'"))
  end.

End Py.

Import Py.

(** ** Python numbers: floats, hexadecimal text *)

Module PyNum.

Definition prec : Z := 53.
Definition emax : Z := 1024.

(** The float nearest to an integer (ties to even), as Python converts
    an [int] operand of a float operation. *)
Definition float_of_int (n : Z) : result spec_float :=
  match binary_normalize prec emax n 0 false with
  | S754_infinity _ => Raise (OverflowError "int too large to convert to float")
  | x => Ok x
  end.

(** An integer as an exact, not yet rounded, operand of a division. *)
Definition exact (n : Z) : spec_float :=
  match n with
  | Z0 => S754_zero false
  | Zpos p => S754_finite false p 0
  | Zneg p => S754_finite true p 0
  end.

(** [a / b] on two integers: the float nearest to the quotient. *)
Definition truediv (a b : Z) : result spec_float :=
  if (b =? 0)%Z then Raise (ZeroDivisionError "division by zero")
  else
    match SFdiv prec emax (exact a) (exact b) with
    | S754_infinity _ =>
        Raise (OverflowError "integer division result too large for a float")
    | x => Ok x
    end.

(** [x * y] on two floats. *)
Definition mul (x y : spec_float) : spec_float := SFmul prec emax x y.

(** [int(x)]: the integer part, towards zero. *)
Definition int_of_float (x : spec_float) : result Z :=
  match x with
  | S754_zero _ => Ok 0
  | S754_finite s m e =>
      let magnitude := Z.shiftl (Zpos m) e in
      Ok (if s then - magnitude else magnitude)
  | S754_infinity _ =>
      Raise (OverflowError "cannot convert float infinity to integer")
  | S754_nan => Raise (ValueError "cannot convert float NaN to integer")
  end.

(** [str(n)], also the text of [n] in an f-string: decimal. *)
Definition str (n : Z) : string := pretty n.

Definition hex_digits (p : positive) : string :=
  HexadecimalString.NilEmpty.string_of_uint (Pos.to_hex_uint p).

(** [hex(n)] *)
Definition hex (n : Z) : string :=
  match n with
  | Z0 => "0x0"
  | Zpos p => "0x" ++ hex_digits p
  | Zneg p => "-0x" ++ hex_digits p
  end.

(** [f"{n:x}"] *)
Definition format_x (n : Z) : string :=
  match n with
  | Z0 => "0"
  | Zpos p => hex_digits p
  | Zneg p => "-" ++ hex_digits p
  end.

End PyNum.

Import PyNum.

(** ** cleanPartition.py *)

Module Eraser.

(** One row of [csv.DictReader]: the column names of the header line
    mapped to the text of the fields. *)
Abbreviation row := (gmap string string).

(** A row of the six-column table
    [#Name,Type,SubType,Offset,Size,Flags]. *)
Definition mk_row (name type subtype offset size flags : string) : row :=
  <["#Name" := name]> (<["Type" := type]> (<["SubType" := subtype]>
  (<["Offset" := offset]> (<["Size" := size]> (<["Flags" := flags]> ∅))))).

(** The [for] loop of [calculate_partition_offset], with the running
    [offset] as an argument. *)
Fixpoint walk (offset : Z) (partitions : list row) (partition_name : string)
  : result Z :=
  match partitions with
  | [] =>
      Raise (ValueError (partition_name ++ " partition not found in the CSV file"))
  | partition :: rest =>
      name ← getitem partition "#Name";
      if String.eqb name partition_name then Ok offset
      else
        size_field ← getitem partition "Size";
        offset ← (if truthy size_field
                  then size ← int16 size_field; Ok (offset + size)
                  else Ok offset);
        offset_field ← getitem partition "Offset";
        offset ← (if truthy offset_field
                  then size ← int16 offset_field; Ok (offset + size)
                  else Ok offset);
        walk offset rest partition_name
  end.

Definition calculate_partition_offset (partitions : list row)
    (partition_name : string) : result Z :=
  walk 0 partitions partition_name.

(** [next(partition['Size'] for partition in partitions
          if partition['#Name'] == partition_name)] *)
Fixpoint next_size (partitions : list row) (partition_name : string)
  : result string :=
  match partitions with
  | [] => Raise StopIteration
  | partition :: rest =>
      name ← getitem partition "#Name";
      if String.eqb name partition_name then getitem partition "Size"
      else next_size rest partition_name
  end.

(** Line 56: the [Size] field of the first row with the name, read
    as a hexadecimal number. *)
Definition partition_size (partitions : list row) (partition_name : string)
  : result Z :=
  size_field ← next_size partitions partition_name;
  int16 size_field.

(** *** The files and [dd] *)

(** A file on disk: its bytes, and whether the user may write to it. *)
Record file := { writable : bool; content : list byte }.

(** What [subprocess.run] returns, as far as the script reads it. *)
Record completed := { returncode : Z; stderr : string }.

Definition zeros (n : Z) : list byte := replicate (Z.to_nat n) x00.

(** [size] zero bytes written at byte [offset] of [old], nothing cut:
    a write that starts past the end first fills the gap with zero
    bytes, and the bytes after the written range are kept. *)
Definition pwrite_zeros (old : list byte) (offset size : Z) : list byte :=
  take (Z.to_nat offset) (old ++ zeros (offset - Z.of_nat (length old)))
    ++ zeros size ++ drop (Z.to_nat (offset + size)) old.

(** [dd if=/dev/zero of=FILE bs=1 seek=OFFSET count=SIZE conv=notrunc],
    after the manual of [dd]: the operands are checked first (a negative
    number is refused), the output file is opened for writing and created
    when missing, never truncated, and [SIZE] blocks of one zero byte are
    written from block [OFFSET] on.  With no block to copy the file is
    left as it is. *)
Definition dd (disk : gmap string file) (out_file : string) (seek count : Z)
  : completed * gmap string file :=
  if (seek <? 0)%Z || (count <? 0)%Z then
    ({| returncode := 1; stderr := "dd: invalid number" |}, disk)
  else
    let old := default {| writable := true; content := [] |} (disk !! out_file) in
    if writable old then
      let new := if (count =? 0)%Z then content old
                 else pwrite_zeros (content old) seek count in
      ({| returncode := 0; stderr := "" |},
       <[out_file := {| writable := true; content := new |}]> disk)
    else
      ({| returncode := 1;
          stderr := "dd: failed to open '" ++ out_file ++ "': Permission denied" |},
       disk).

(** The machine the script runs on: the partition tables that
    [parse_csv] reads, by path and already split into rows, and the
    files that [dd] writes. *)
Record world := {
  tables : gmap string (list row);
  disk : gmap string file
}.

(** What a run leaves behind. *)
Record outcome := {
  exit_status : Z;
  printed : list string;
  uncaught : option exception;
  final_disk : gmap string file
}.

Definition parse_csv (w : world) (csv_file : string) : result (list row) :=
  match tables w !! csv_file with
  | Some partitions => Ok partitions
  | None => Raise (FileNotFoundError csv_file)
  end.

Definition join (sep : string) (ws : list string) : string :=
  String.concat sep ws.

(** [clear_partition] returns what it printed and the disk after [dd].
    It returns normally whatever [dd] reports. *)
Definition clear_partition (disk : gmap string file) (binary_file : string)
    (offset size : Z) : list string * gmap string file :=
  let dd_command :=
    ["dd"; "if=/dev/zero";
     "of=" ++ binary_file;
     "bs=1";
     "seek=" ++ str offset;
     "count=" ++ str size;
     "conv=notrunc"] in
  let line1 := "Executing command: " ++ join " " dd_command in
  let '(result, disk') := dd disk binary_file offset size in
  if negb (returncode result =? 0)%Z then
    ([line1; "Error executing dd: " ++ stderr result], disk')
  else
    ([line1; "NVS partition cleared successfully"], disk').

(** The body of the [try] block of [main]. *)
Definition main_try (w : world) (csv_file binary_file partition_name : string)
  : result (list string * gmap string file) :=
  partitions ← parse_csv w csv_file;
  partition_offset ← calculate_partition_offset partitions partition_name;
  partition_size ← partition_size partitions partition_name;
  Ok (clear_partition (disk w) binary_file partition_offset partition_size).

(** [main]: [argv] is [sys.argv], the script's own name first.  A
    [ValueError] is printed and ends the run with status 1; any other
    exception is not caught, and the interpreter then ends the run with
    status 1 as well; a run that reaches the end of [main] has status 0. *)
Definition main (argv : list string) (w : world) : outcome :=
  match argv with
  | [_; csv_file; binary_file; partition_name] =>
      match main_try w csv_file binary_file partition_name with
      | Ok (out, disk') =>
          {| exit_status := 0; printed := out; uncaught := None;
             final_disk := disk' |}
      | Raise (ValueError e) =>
          {| exit_status := 1; printed := [e]; uncaught := None;
             final_disk := disk w |}
      | Raise e =>
          {| exit_status := 1; printed := []; uncaught := Some e;
             final_disk := disk w |}
      end
  | _ =>
      {| exit_status := 1;
         printed := ["Usage: python script.py <csv_file> <binary_file> <partition_name>"];
         uncaught := None; final_disk := disk w |}
  end.

End Eraser.

(** ** generatePartTable.py *)

Module Generator.

Definition nl : string := String "010"%char "".

(** Line 33: [tolerance_percentage / 100]. *)
Definition tolerance_fraction (tolerance_percentage : Z) : result spec_float :=
  truediv tolerance_percentage 100.

(** Line 34. *)
Definition app_partition_size_bytes
    (firmware_size_bytes tolerance_percentage : Z) : result Z :=
  tolerance_fraction ← tolerance_fraction tolerance_percentage;
  firmware_float ← float_of_int firmware_size_bytes;
  margin ← int_of_float (mul firmware_float tolerance_fraction);
  Ok (Z.land (firmware_size_bytes + margin + 0xFFF) (Z.lnot 0xFFF)).

Definition coredump_partition_size_bytes : Z := 0x10000.
Definition nvs_partition_size_bytes : Z := 0x3000.
Definition app_partition_offset : Z := 0x10000.

(** Lines 40 and 42. *)
Definition current_used_flash (app_partition_size_bytes : Z) : Z :=
  coredump_partition_size_bytes + app_partition_offset
    + nvs_partition_size_bytes + app_partition_size_bytes.

(** Line 51. *)
Definition spiffs_partition_size_bytes
    (flash_size_bytes current_used_flash : Z) : Z :=
  Z.land (flash_size_bytes - current_used_flash - 0xFFF) (Z.lnot 0xFFF).

(** Lines 57 to 66: the lines of the table. *)
Definition partition_table (app_size spiffs_size : Z) : list string :=
  ["#Name,Type,SubType,Offset,Size,Flags" ++ nl;
   "app,app,factory,0x" ++ format_x app_partition_offset ++ ","
     ++ hex app_size ++ "," ++ nl;
   "coredump,data,coredump,,0x" ++ format_x coredump_partition_size_bytes
     ++ "," ++ nl;
   "nvs,data,nvs,,0x" ++ format_x nvs_partition_size_bytes ++ "," ++ nl;
   "littlefs,data,undefined,," ++ hex spiffs_size ++ "," ++ nl].

(** The machine the script runs on: [stat] gives the size in bytes of
    the file at a path, if there is one, and [files] holds the text
    files the script reads and writes. *)
Record world := {
  stat : string -> option Z;
  files : gmap string string
}.

Record outcome := {
  exit_status : Z;
  printed : list string;
  uncaught : option exception;
  final_files : gmap string string
}.

Definition template_path : string := "templates/snoititrap-template.csv".
Definition partition_table_path : string := "in/partitions.csv".
Definition offset_path : string := "in/offset.txt".
Definition size_path : string := "in/size.txt".

(** Line 24. *)
Definition firmware_path (pio_env : string) : string :=
  "../../../.pio/build/" ++ pio_env ++ "/firmware.bin".

Definition no_firmware_message : string :=
  "There is no firmware.bin file. I'm assuming you couldn't compile it because of the partition size. Copying the default partition file and exiting.".

(** The script from line 16 on.  The two integers of [in/fsConfig.ini]
    and the two texts the shell command returned (the name of the build
    environment and what it wrote on its error stream) are arguments.
    An exception ends the run with status 1, [sys.exit(0)] and the end
    of the script with status 0.  Paths are the keys of [files], so
    [os.makedirs] of line 44 has nothing to do. *)
Definition run (tolerance_percentage flash_size_mb : Z)
    (pio_env pio_stderr : string) (w : world) : outcome :=
  let flash_size_bytes := flash_size_mb * 1024 * 1024 in
  match stat w (firmware_path pio_env) with
  | None =>
      match files w !! template_path with
      | Some template =>
          {| exit_status := 0;
             printed := [pio_stderr; no_firmware_message];
             uncaught := None;
             final_files := <[partition_table_path := template]> (files w) |}
      | None =>
          {| exit_status := 1; printed := [pio_stderr];
             uncaught := Some (FileNotFoundError template_path);
             final_files := files w |}
      end
  | Some firmware_size_bytes =>
      match app_partition_size_bytes firmware_size_bytes tolerance_percentage with
      | Raise e =>
          {| exit_status := 1; printed := [pio_stderr];
             uncaught := Some e; final_files := files w |}
      | Ok app_size =>
          let used := current_used_flash app_size in
          let fs1 := <[offset_path := hex used ++ nl]> (files w) in
          let spiffs_size := spiffs_partition_size_bytes flash_size_bytes used in
          let fs2 := <[size_path := str spiffs_size ++ nl]> fs1 in
          let fs3 := <[partition_table_path :=
                         String.concat "" (partition_table app_size spiffs_size)]> fs2 in
          {| exit_status := 0;
             printed := [pio_stderr; "Partition table created successfully."];
             uncaught := None;
             final_files := fs3 |}
      end
  end.

End Generator.

(** ** Predicates and sample data of the statements *)

Module Rounded.

(** The exponent bound after the two shifts of [binary_round_aux]. *)
Definition exponent_bound (D E : Z) : Z :=
  let E' := Z.max E (Z.max (D + E - 53) (-1074)) in
  Z.max E' (Z.max (D + 1 + E' - 53) (-1074)).

(** [x] has the sign [sx]; a NaN has no sign. *)
Definition sign_is (sx : bool) (x : spec_float) : Prop :=
  match x with
  | S754_zero s | S754_infinity s | S754_finite s _ _ => s = sx
  | S754_nan => True
  end.

(** A float that is zero or finite, not negative, with a mantissa
    below [2^D] and an exponent of at most [E]. *)
Definition small_nonneg (D E : Z) (x : spec_float) : Prop :=
  match x with
  | S754_zero s => s = false
  | S754_finite s m e => s = false /\ Zpos m < 2 ^ D /\ e <= E
  | _ => False
  end.

(** The test of [small_nonneg 53 0] on the result of a division. *)
Definition small_fraction (r : result spec_float) : bool :=
  match r with
  | Ok (S754_zero false) => true
  | Ok (S754_finite false m e) => (Zpos m <? 2 ^ 53)%Z && (e <=? 0)%Z
  | _ => false
  end.

End Rounded.

Module EraserData.

Import Eraser.

(** The table of the first example: three rows in sequence, of sizes
    10, 20 and 30. *)
Definition abc_table : list row :=
  [mk_row "A" "data" "" "" "0xa" "";
   mk_row "B" "data" "" "" "0x14" "";
   mk_row "C" "data" "" "" "0x1e" ""].

(** The table of the second example: [B] has an explicit offset of 5
    and a size of 20. *)
Definition ab5c_table : list row :=
  [mk_row "A" "data" "" "" "0xa" "";
   mk_row "B" "data" "" "0x5" "0x14" "";
   mk_row "C" "data" "" "" "0x1e" ""].

(** The sum of a list of sizes. *)
Definition total (sizes : list Z) : Z := foldr Z.add 0 sizes.

(** A row of a table laid out in sequence: a name, no [Offset], and a
    [Size] that reads as [size]. *)
Definition sequential_entry (partition : row) (d : string * Z) : Prop :=
  partition !! "#Name" = Some d.1 /\
  partition !! "Offset" = Some "" /\
  exists size_field,
    partition !! "Size" = Some size_field /\ int16 size_field = Ok d.2.

(** A field of a well-formed table: empty, or a hexadecimal number. *)
Definition field_ok (field : option string) : Prop :=
  exists s, field = Some s /\ (s = "" \/ exists n, int16 s = Ok n).

(** A row of a well-formed table: it has the three columns the script
    reads, and its [Size] and [Offset] are fields as above. *)
Definition well_formed_row (partition : row) : Prop :=
  is_Some (partition !! "#Name") /\
  field_ok (partition !! "Size") /\ field_ok (partition !! "Offset").

(** The table the generator writes for a firmware of 1000000 bytes, a
    tolerance of 10 and a flash of 4 MiB. *)
Definition generated_table : list row :=
  [mk_row "app" "app" "factory" "0x10000" "0x10d000" "";
   mk_row "coredump" "data" "coredump" "" "0x10000" "";
   mk_row "nvs" "data" "nvs" "" "0x3000" "";
   mk_row "littlefs" "data" "undefined" "" "0x2cf000" ""].

(** The same table with the size of [nvs] left out. *)
Definition table_without_nvs_size : list row :=
  [mk_row "app" "app" "factory" "0x10000" "0x10d000" "";
   mk_row "coredump" "data" "coredump" "" "0x10000" "";
   mk_row "nvs" "data" "nvs" "" "" "";
   mk_row "littlefs" "data" "undefined" "" "0x2cf000" ""].

(** A table whose first row has a size that is not a number. *)
Definition table_with_bad_size : list row :=
  [mk_row "app" "app" "factory" "0x10000" "64K" "";
   mk_row "nvs" "data" "nvs" "" "0x3000" ""].

Definition small_image : list byte := [x01; x02; x03; x04].

(** A machine with both tables and an image that may not be written. *)
Definition read_only_machine : world :=
  {| tables := {[ "partitions.csv" := generated_table;
                  "broken.csv" := table_without_nvs_size;
                  "bad.csv" := table_with_bad_size ]};
     disk := {[ "firmware.bin" :=
                  {| writable := false; content := small_image |} ]} |}.

(** An image of 512 KiB, every byte [0xff], as the only file. *)
Definition blank_flash : file :=
  {| writable := true; content := replicate (Z.to_nat 0x80000) xff |}.

End EraserData.

Module GeneratorData.

Import Generator.

(** The application size as the specification words it: the margin is
    the exact integer part of [firmware * tolerance / 100]. *)
Definition app_size_exact (firmware_size_bytes tolerance_percentage : Z) : Z :=
  Z.land (firmware_size_bytes
          + firmware_size_bytes * tolerance_percentage / 100 + 0xFFF)
         (Z.lnot 0xFFF).

(** The template that ships with the script, shortened to two rows. *)
Definition template_text : string :=
  "#Name,Type,SubType,Offset,Size,Flags" ++ nl
  ++ "app,app,factory,0x10000,0x200000," ++ nl.

(** A machine where a firmware of 2 MiB has been built for the
    environment [esp32]. *)
Definition built_2MiB : world :=
  {| stat := fun path =>
       if String.eqb path (firmware_path "esp32") then Some 2097152 else None;
     files := {[ template_path := template_text ]} |}.

(** The same machine before the first build. *)
Definition not_built : world :=
  {| stat := fun _ => None;
     files := {[ template_path := template_text ]} |}.

End GeneratorData.

Module EraserSpec.

Import Eraser EraserData.

(** What a field adds to the running offset: nothing when it is empty,
    the hexadecimal number it holds otherwise. *)
Definition field_reads (field : string) (n : Z) : Prop :=
  (field = "" /\ n = 0) \/ int16 field = Ok n.

(** A row described by its name and by what its [Size] and its [Offset]
    add to the running offset. *)
Definition entry_fields (partition : row) (d : string * Z * Z) : Prop :=
  partition !! "#Name" = Some d.1.1 /\
  (exists size_field,
      partition !! "Size" = Some size_field /\ field_reads size_field d.1.2) /\
  (exists offset_field,
      partition !! "Offset" = Some offset_field /\ field_reads offset_field d.2).

(** The sum of what the described rows add. *)
Definition advance (ds : list (string * Z * Z)) : Z :=
  foldr (fun d acc => d.1.2 + d.2 + acc) 0 ds.



(** The first line [clear_partition] prints. *)
Definition dd_command_line (binary_file : string) (offset size : Z) : string :=
  "Executing command: dd if=/dev/zero of=" ++ binary_file
  ++ " bs=1 seek=" ++ str offset ++ " count=" ++ str size ++ " conv=notrunc".

Definition usage_line : string :=
  "Usage: python script.py <csv_file> <binary_file> <partition_name>".

(** An image of 4 MiB, every byte [0xff]. *)
Definition flash_image : file :=
  {| writable := true; content := replicate (Z.to_nat 0x400000) xff |}.

(** A table read under a header written [# Name, ...]: the rows have no
    column called [#Name]. *)
Definition spaced_header_table : list row :=
  [list_to_map [("# Name", "nvs"); ("Type", "data"); ("SubType", "nvs");
                ("Offset", ""); ("Size", "0x3000"); ("Flags", "")]].

(** A machine with the generated table, a table under the other header,
    and an image that may be written. *)
Definition writable_machine : world :=
  {| tables := {[ "partitions.csv" := generated_table;
                  "spaced.csv" := spaced_header_table ]};
     disk := {[ "firmware.bin" := flash_image ]} |}.

End EraserSpec.

Module Bridge.

Import Eraser Generator.

(** The names of the columns, as the first line of the table gives them. *)
Definition header_fields : list string :=
  ["#Name"; "Type"; "SubType"; "Offset"; "Size"; "Flags"].

(** A line of the table: the fields with commas between them. *)
Definition csv_line (fields : list string) : string :=
  String.concat "," fields ++ nl.

(** The fields of the four rows the generator writes. *)
Definition generated_fields (app_size spiffs_size : Z) : list (list string) :=
  [["app"; "app"; "factory";
    "0x" ++ format_x app_partition_offset; hex app_size; ""];
   ["coredump"; "data"; "coredump"; "";
    "0x" ++ format_x coredump_partition_size_bytes; ""];
   ["nvs"; "data"; "nvs"; "";
    "0x" ++ format_x nvs_partition_size_bytes; ""];
   ["littlefs"; "data"; "undefined"; ""; hex spiffs_size; ""]].

(** The dictionary of a row: [dict(zip(fieldnames, row))]. *)
Definition dict_row (fields : list string) : row :=
  list_to_map (zip header_fields fields).

Definition generated_rows (app_size spiffs_size : Z) : list row :=
  dict_row <$> generated_fields app_size spiffs_size.

End Bridge.

(** ** The scripts on small inputs *)

Example int16_0x3000 : int16 "0x3000" = Ok 12288.
Proof. reflexivity. Qed.

Example int16_no_prefix : int16 "1F" = Ok 31.
Proof. reflexivity. Qed.

Example int16_blank : int16 " -0X_a_0
" = Ok (-160).
Proof. reflexivity. Qed.

Example int16_empty :
  int16 "" = Raise (ValueError "invalid literal for int() with base 16: ''").
Proof. reflexivity. Qed.

Example int16_bad : int16 "0x" = Raise (ValueError "invalid literal for int() with base 16: '0x'").
Proof. reflexivity. Qed.

Example hex_0x73000 : hex 471040 = "0x73000".
Proof. reflexivity. Qed.

Example hex_negative : hex (-4096) = "-0x1000".
Proof. reflexivity. Qed.

Example hex_letters : format_x 0xABCDEF = "abcdef".
Proof. reflexivity. Qed.

(** 0.29 is not a binary64 number: [29 / 100] is the float just below
    it, 5224175567749775 * 2^-54. *)
Example truediv_29_100 :
  truediv 29 100 = Ok (S754_finite false 5224175567749775 (-54)).
Proof. vm_compute. reflexivity. Qed.

Example float_of_int_100 :
  float_of_int 100 = Ok (S754_finite false 7036874417766400 (-46)).
Proof. vm_compute. reflexivity. Qed.

(** [int(100 * 0.29)] is 28 in Python, not 29. *)
Example int_100_times_029 :
  (x ← truediv 29 100; f ← float_of_int 100; int_of_float (mul f x)) = Ok 28.
Proof. vm_compute. reflexivity. Qed.

Example abc_offset :
  Eraser.calculate_partition_offset EraserData.abc_table "C" = Ok 30.
Proof. vm_compute. reflexivity. Qed.

Example app_size_100_29 :
  Generator.app_partition_size_bytes 100 29 = Ok 4096.
Proof. vm_compute. reflexivity. Qed.

Example app_size_1MB_10 :
  Generator.app_partition_size_bytes 1000000 10 = Ok 1101824.
Proof. vm_compute. reflexivity. Qed.

(** ** Facts on rounding to binary64 *)

Section Rounding.

Import Rounded.

Lemma fexp_64 (e : Z) : fexp prec emax e = Z.max (e - 53) (-1074).
Proof. reflexivity. Qed.

(** A mantissa below [2^D] has at most [D] binary digits. *)
Lemma Zdigits2_below (m D : Z) :
  0 <= D -> 0 <= m < 2 ^ D -> 0 <= Zdigits2 m <= D.
Proof.
  intros HD [Hm Hlt]. destruct m as [|p|p]; [simpl; lia| |lia].
  assert (Hsize : forall q, digits2_pos q = Pos.size q)
    by (induction q; simpl; congruence).
  assert (Hlog : Z.log2 (Zpos p) < D) by (apply Z.log2_lt_pow2; lia).
  assert (Hd : Zdigits2 (Zpos p) = Z.log2 (Zpos p) + 1).
  { simpl. rewrite Hsize. destruct p; simpl; lia. }
  rewrite Hd. pose proof (Z.log2_nonneg (Zpos p)). lia.
Qed.

Lemma iter_pos_invariant {A} (f : A -> A) (P : A -> Prop) :
  (forall x, P x -> P (f x)) -> forall p x, P x -> P (SpecFloat.iter_pos f p x).
Proof.
  intros Hf. induction p as [p IH|p IH|]; intros x Hx; simpl; auto.
Qed.

Lemma shr_1_bound (M : Z) (r : shr_record) :
  0 <= shr_m r <= M -> 0 <= shr_m (shr_1 r) <= M.
Proof.
  destruct r as [m b s]. destruct m as [|[p|p|]|p]; simpl; lia.
Qed.

Lemma shr_record_of_loc_m (m : Z) (l : location) :
  shr_m (shr_record_of_loc m l) = m.
Proof. destruct l as [|[ | | ]]; reflexivity. Qed.

(** One shift to the exponent of the format: the mantissa does not grow
    and the exponent stays below a bound that depends on the size of the
    input only. *)
Lemma shr_fexp_bound (m e D E : Z) (l : location) :
  0 <= D -> 0 <= m < 2 ^ D -> e <= E ->
  let '(r, e') := shr_fexp prec emax m e l in
  0 <= shr_m r <= m /\ e' <= Z.max E (Z.max (D + E - 53) (-1074)).
Proof.
  intros HD Hm He. unfold shr_fexp, shr.
  pose proof (Zdigits2_below m D HD Hm) as Hdig.
  rewrite fexp_64.
  destruct (Z.max (Zdigits2 m + e - 53) (-1074) - e) as [|p|p] eqn:Hn.
  - rewrite shr_record_of_loc_m. lia.
  - split.
    + apply (iter_pos_invariant shr_1 (fun r => 0 <= shr_m r <= m)).
      * intros x. apply shr_1_bound.
      * rewrite shr_record_of_loc_m. lia.
    + lia.
  - rewrite shr_record_of_loc_m. lia.
Qed.

Lemma round_nearest_even_bound (m : Z) (l : location) :
  m <= round_nearest_even m l <= m + 1.
Proof.
  destruct l as [|[ | | ]]; simpl; try lia. destruct (Z.even m); lia.
Qed.

(** Rounding a non-negative mantissa of moderate size gives a zero or a
    finite float of the same sign: never an infinity, never a NaN. *)
Lemma binary_round_aux_finite (sx : bool) (mx ex D E : Z) (lx : location) :
  0 <= D -> 0 <= mx < 2 ^ D -> ex <= E -> exponent_bound D E <= 971 ->
  match binary_round_aux prec emax sx mx ex lx with
  | S754_zero s => s = sx
  | S754_finite s m e =>
      s = sx /\ Zpos m < 2 ^ (D + 1) /\ e <= exponent_bound D E
  | _ => False
  end.
Proof.
  intros HD Hm He HB. unfold binary_round_aux, exponent_bound in *.
  pose proof (shr_fexp_bound mx ex D E lx HD Hm He) as H1.
  destruct (shr_fexp prec emax mx ex lx) as [r1 e1].
  destruct H1 as [Hr1 He1].
  pose proof (round_nearest_even_bound (shr_m r1) (loc_of_shr_record r1)) as Hrne.
  set (m1 := round_nearest_even (shr_m r1) (loc_of_shr_record r1)) in *.
  assert (Hpow : 2 ^ (D + 1) = 2 * 2 ^ D)
    by (rewrite Z.pow_add_r by lia; lia).
  assert (Hm1 : 0 <= m1 < 2 ^ (D + 1)) by lia.
  pose proof (shr_fexp_bound m1 e1 (D + 1) _ loc_Exact ltac:(lia) Hm1 He1) as H2.
  destruct (shr_fexp prec emax m1 e1 loc_Exact) as [r2 e2].
  destruct H2 as [Hr2 He2].
  destruct (shr_m r2) as [|m2|m2] eqn:Hm2; [reflexivity| |lia].
  destruct (Z.leb_spec e2 (emax - prec)) as [Hle|Hgt].
  - repeat split; lia.
  - change (emax - prec) with 971 in Hgt. lia.
Qed.

(** Whatever the size of the input, rounding keeps the sign. *)
Lemma binary_round_aux_sign (sx : bool) (mx ex : Z) (lx : location) :
  sign_is sx (binary_round_aux prec emax sx mx ex lx).
Proof.
  unfold binary_round_aux.
  destruct (shr_fexp prec emax mx ex lx) as [r1 e1].
  destruct (shr_fexp _ _ _ e1 loc_Exact) as [r2 e2].
  destruct (shr_m r2); simpl; trivial.
  destruct (e2 <=? emax - prec)%Z; reflexivity.
Qed.

Lemma binary_round_aux_small (mx ex D E : Z) (lx : location) :
  0 <= D -> 0 <= mx < 2 ^ D -> ex <= E -> exponent_bound D E <= 971 ->
  small_nonneg (D + 1) (exponent_bound D E)
    (binary_round_aux prec emax false mx ex lx).
Proof.
  intros HD Hm He HB.
  pose proof (binary_round_aux_finite false mx ex D E lx HD Hm He HB) as H.
  destruct (binary_round_aux prec emax false mx ex lx); simpl; auto.
Qed.

Lemma iter_xO_pow2 (m d : positive) :
  Zpos (Pos.iter xO m d) = Zpos m * 2 ^ Zpos d.
Proof.
  induction d as [|d IH] using Pos.peano_ind.
  - simpl. lia.
  - rewrite Pos.iter_succ, Pos2Z.inj_succ, Z.pow_succ_r by lia.
    rewrite Pos2Z.inj_xO, IH. lia.
Qed.

(** *** The three float operations of line 33 and line 34 *)

Lemma float_of_int_sign (n : Z) (x : spec_float) :
  0 <= n -> float_of_int n = Ok x -> sign_is false x.
Proof.
  intros Hn. unfold float_of_int, binary_normalize.
  destruct n as [|p|p]; [|  |lia].
  - intros [= <-]. reflexivity.
  - unfold binary_round.
    destruct (shl_align p 0 _) as [mz ez].
    pose proof (binary_round_aux_sign false (Zpos mz) ez loc_Exact) as Hs.
    destruct (binary_round_aux prec emax false (Zpos mz) ez loc_Exact);
      intros [= <-]; exact Hs.
Qed.

Lemma float_of_int_small (n : Z) :
  0 <= n < 2 ^ 63 ->
  exists x, float_of_int n = Ok x /\ small_nonneg 116 125 x.
Proof.
  intros Hn. unfold float_of_int, binary_normalize.
  destruct n as [|p|p]; [|  |lia].
  - exists (S754_zero false). split; reflexivity.
  - unfold binary_round.
    assert (Hal : let '(mz, ez) :=
                    shl_align p 0 (fexp prec emax (Zpos (digits2_pos p) + 0)) in
                  0 <= Zpos mz < 2 ^ 115 /\ ez <= 0).
    { unfold shl_align. rewrite fexp_64.
      destruct (Z.max (Zpos (digits2_pos p) + 0 - 53) (-1074) - 0)
        as [|d|d] eqn:Hd; try lia.
      rewrite iter_xO_pow2.
      assert (2 ^ Zpos d <= 2 ^ 52) by (apply Z.pow_le_mono_r; lia).
      assert (0 < 2 ^ Zpos d) by (apply Z.pow_pos_nonneg; lia).
      change (2 ^ 115) with (2 ^ 63 * 2 ^ 52). nia. }
    destruct (shl_align p 0 _) as [mz ez]. destruct Hal as [Hmz Hez].
    pose proof (binary_round_aux_small (Zpos mz) ez 115 0 loc_Exact
                  ltac:(lia) Hmz Hez ltac:(vm_compute; discriminate)) as Hs.
    change (115 + 1) with 116 in Hs.
    change (exponent_bound 115 0) with 125 in Hs.
    destruct (binary_round_aux prec emax false (Zpos mz) ez loc_Exact);
      simpl in Hs; try contradiction; eexists; split; try reflexivity; exact Hs.
Qed.

Lemma truediv_sign (a b : Z) (x : spec_float) :
  0 <= a -> 0 < b -> truediv a b = Ok x -> sign_is false x.
Proof.
  intros Ha Hb. unfold truediv.
  destruct (Z.eqb_spec b 0) as [->|_]; [lia|].
  destruct a as [|p|p], b as [|q|q]; try lia; simpl.
  - intros [= <-]. reflexivity.
  - destruct (SFdiv_core_binary prec emax (Zpos p) 0 (Zpos q) 0) as [[mz ez] lz].
    pose proof (binary_round_aux_sign false mz ez lz) as Hs.
    destruct (binary_round_aux prec emax false mz ez lz);
      intros [= <-]; exact Hs.
Qed.

(** The 101 quotients [0/100] to [100/100], one by one. *)
Lemma truediv_100_small (t : Z) :
  0 <= t <= 100 ->
  exists x, truediv t 100 = Ok x /\ small_nonneg 53 0 x.
Proof.
  intros Ht.
  assert (Hall : forallb (fun n => small_fraction (truediv (Z.of_nat n) 100))
                   (seq 0 101) = true) by (vm_compute; reflexivity).
  rewrite forallb_forall in Hall.
  specialize (Hall (Z.to_nat t)).
  rewrite Z2Nat.id in Hall by lia.
  assert (Hin : In (Z.to_nat t) (seq 0 101)) by (apply in_seq; lia).
  specialize (Hall Hin). unfold small_fraction in Hall.
  destruct (truediv t 100) as [x|]; [|discriminate].
  destruct x as [[|]|s| |[|] m e]; try discriminate.
  - eexists; split; reflexivity.
  - apply andb_true_iff in Hall as [H1 H2].
    eexists; split; [reflexivity|]. simpl. split; [reflexivity|]. lia.
Qed.

Lemma mul_sign (x y : spec_float) :
  sign_is false x -> sign_is false y -> sign_is false (mul x y).
Proof.
  unfold mul.
  destruct x as [sx|sx| |sx mx ex], y as [sy|sy| |sy my ey]; simpl;
    try (intros -> ->; reflexivity); trivial.
  intros -> ->. apply binary_round_aux_sign.
Qed.

Lemma mul_small (x y : spec_float) :
  small_nonneg 116 125 x -> small_nonneg 53 0 y ->
  small_nonneg 170 358 (mul x y).
Proof.
  unfold mul.
  destruct x as [sx|sx| |sx mx ex], y as [sy|sy| |sy my ey]; simpl;
    try contradiction; try (intros -> ->; reflexivity).
  - intros -> (-> & _). reflexivity.
  - intros (-> & _) ->. reflexivity.
  - intros (-> & Hmx & Hex) (-> & Hmy & Hey).
    assert (Hprod : 0 <= Zpos (mx * my) < 2 ^ 169).
    { rewrite Pos2Z.inj_mul. change (2 ^ 169) with (2 ^ 116 * 2 ^ 53). nia. }
    exact (binary_round_aux_small (Zpos (mx * my)) (ex + ey) 169 125 loc_Exact
             ltac:(lia) Hprod ltac:(lia) ltac:(vm_compute; discriminate)).
Qed.

Lemma int_of_float_nonneg (x : spec_float) (n : Z) :
  sign_is false x -> int_of_float x = Ok n -> 0 <= n.
Proof.
  destruct x as [s|s| |s m e]; simpl; try discriminate.
  - intros _ [= <-]. lia.
  - intros -> [= <-]. apply Z.shiftl_nonneg. lia.
Qed.

Lemma int_of_float_small (D E : Z) (x : spec_float) :
  small_nonneg D E x -> exists n, int_of_float x = Ok n.
Proof.
  destruct x as [s|s| |s m e]; simpl; try contradiction; eauto.
Qed.

Lemma small_nonneg_sign (D E : Z) (x : spec_float) :
  small_nonneg D E x -> sign_is false x.
Proof. destruct x; simpl; tauto. Qed.

End Rounding.

(** ** Alignment to 4096 bytes *)

Section Alignment.

(** [x & ~0xFFF] clears the twelve low bits: the multiple of 4096 at or
    below [x], also for a negative [x]. *)
Lemma land_lnot_0xFFF (x : Z) : Z.land x (Z.lnot 0xFFF) = 4096 * (x / 4096).
Proof.
  change 0xFFF with (Z.ones 12). change 4096 with (2 ^ 12).
  rewrite Z.mul_comm, <- Z.shiftr_div_pow2, <- Z.shiftl_mul_pow2 by lia.
  apply Z.bits_inj'. intros n Hn.
  rewrite Z.land_spec, Z.lnot_spec, Z.shiftl_spec by lia.
  destruct (Z.lt_ge_cases n 12) as [Hlo|Hhi].
  - rewrite Z.ones_spec_low, (Z.testbit_neg_r _ (n - 12)) by lia.
    apply andb_false_r.
  - rewrite Z.ones_spec_high, Z.shiftr_spec by lia.
    rewrite andb_true_r. f_equal. lia.
Qed.

Lemma align_down_spec (x : Z) :
  let y := Z.land x (Z.lnot 0xFFF) in
  y mod 4096 = 0 /\ x - 4095 <= y <= x.
Proof.
  cbv zeta. rewrite land_lnot_0xFFF.
  split.
  - rewrite Z.mul_comm. apply Z_mod_mult.
  - pose proof (Z.div_mod x 4096 ltac:(lia)).
    pose proof (Z.mod_pos_bound x 4096 ltac:(lia)). lia.
Qed.

Lemma align_up_spec (x : Z) :
  let y := Z.land (x + 0xFFF) (Z.lnot 0xFFF) in
  y mod 4096 = 0 /\ x <= y <= x + 4095.
Proof.
  cbv zeta. pose proof (align_down_spec (x + 0xFFF)) as H. cbv zeta in H.
  change 0xFFF with 4095 in *. lia.
Qed.

End Alignment.

(** ** The generator *)

Section GeneratorFacts.

Import Generator GeneratorData.

(** C6. For every firmware size of at least 0 and every tolerance from
    0 to 100, the application partition size of line 34 is a multiple of
    4096 and is at least the firmware size.  The size is computed for
    every firmware size a file can have (below 2^63 bytes); an integer
    too large for a float makes line 34 raise instead. *)
Theorem app_partition_size_aligned (firmware_size_bytes tolerance_percentage : Z) :
  0 <= firmware_size_bytes -> 0 <= tolerance_percentage <= 100 ->
  (firmware_size_bytes < 2 ^ 63 ->
   exists app,
     app_partition_size_bytes firmware_size_bytes tolerance_percentage = Ok app) /\
  (forall app,
     app_partition_size_bytes firmware_size_bytes tolerance_percentage = Ok app ->
     app mod 4096 = 0 /\ firmware_size_bytes <= app).
Proof.
  intros Hfw Htol. unfold app_partition_size_bytes, tolerance_fraction. split.
  - intros Hlt.
    destruct (truediv_100_small tolerance_percentage Htol) as (x & -> & Hx).
    destruct (float_of_int_small firmware_size_bytes ltac:(lia)) as (f & -> & Hf).
    destruct (int_of_float_small _ _ _ (mul_small f x Hf Hx)) as (margin & Hm).
    simpl. rewrite Hm. simpl. eauto.
  - intros app.
    destruct (truediv tolerance_percentage 100) as [x|] eqn:Hx; [|discriminate].
    destruct (float_of_int firmware_size_bytes) as [f|] eqn:Hf; [|discriminate].
    simpl.
    destruct (int_of_float (mul f x)) as [margin|] eqn:Hm; [|discriminate].
    simpl. intros [= <-].
    assert (0 <= margin).
    { apply (int_of_float_nonneg (mul f x)); [|exact Hm].
      apply mul_sign.
      - exact (float_of_int_sign _ _ Hfw Hf).
      - apply (truediv_sign tolerance_percentage 100); [lia|lia|exact Hx]. }
    pose proof (align_up_spec (firmware_size_bytes + margin)) as Hal.
    cbv zeta in Hal. lia.
Qed.

Lemma app_partition_size_aligned_witness :
  (0 <= 1000000 /\ 0 <= 10 <= 100) /\
  app_partition_size_bytes 1000000 10 = Ok 1101824 /\
  1101824 mod 4096 = 0 /\ 1000000 <= 1101824.
Proof.
  split; [lia|]. split; [vm_compute; reflexivity|].
  apply (proj2 (app_partition_size_aligned 1000000 10 ltac:(lia) ltac:(lia))).
  vm_compute. reflexivity.
Defined.

(** C7. When the filesystem size of line 51 is positive, it is a
    multiple of 4096, and the application offset, the coredump size, the
    NVS size, the application size and the filesystem size add up to at
    most the flash capacity.  This holds for any application size. *)
Theorem spiffs_partition_size_fits (flash_size_mb app_size : Z) :
  0 < spiffs_partition_size_bytes (flash_size_mb * 1024 * 1024)
        (current_used_flash app_size) ->
  spiffs_partition_size_bytes (flash_size_mb * 1024 * 1024)
    (current_used_flash app_size) mod 4096 = 0 /\
  app_partition_offset + coredump_partition_size_bytes
    + nvs_partition_size_bytes + app_size
    + spiffs_partition_size_bytes (flash_size_mb * 1024 * 1024)
        (current_used_flash app_size)
  <= flash_size_mb * 1024 * 1024.
Proof.
  intros _. unfold spiffs_partition_size_bytes, current_used_flash.
  pose proof (align_down_spec
    (flash_size_mb * 1024 * 1024
     - (coredump_partition_size_bytes + app_partition_offset
        + nvs_partition_size_bytes + app_size) - 0xFFF)) as H.
  cbv zeta in H. destruct H as [Hmod Hle]. split; [exact Hmod|].
  change 0xFFF with 4095 in *. lia.
Qed.

Lemma spiffs_partition_size_fits_witness :
  0 < spiffs_partition_size_bytes (4 * 1024 * 1024) (current_used_flash 1101824) /\
  spiffs_partition_size_bytes (4 * 1024 * 1024) (current_used_flash 1101824)
    = 2945024 /\
  spiffs_partition_size_bytes (4 * 1024 * 1024)
    (current_used_flash 1101824) mod 4096 = 0 /\
  app_partition_offset + coredump_partition_size_bytes
    + nvs_partition_size_bytes + 1101824
    + spiffs_partition_size_bytes (4 * 1024 * 1024) (current_used_flash 1101824)
  <= 4 * 1024 * 1024.
Proof.
  split; [reflexivity|]. split; [reflexivity|].
  apply (spiffs_partition_size_fits 4 1101824). reflexivity.
Defined.

(** What the run writes once the firmware size is known and line 34
    has returned: the three files, in the order of the script. *)
Lemma run_with_firmware (tolerance_percentage flash_size_mb : Z)
    (pio_env pio_stderr : string) (w : world) (firmware_size_bytes app_size : Z) :
  stat w (firmware_path pio_env) = Some firmware_size_bytes ->
  app_partition_size_bytes firmware_size_bytes tolerance_percentage = Ok app_size ->
  let used := current_used_flash app_size in
  let spiffs_size :=
    spiffs_partition_size_bytes (flash_size_mb * 1024 * 1024) used in
  run tolerance_percentage flash_size_mb pio_env pio_stderr w =
  {| exit_status := 0;
     printed := [pio_stderr; "Partition table created successfully."];
     uncaught := None;
     final_files :=
       <[partition_table_path :=
           String.concat "" (partition_table app_size spiffs_size)]>
         (<[size_path := str spiffs_size ++ nl]>
            (<[offset_path := hex used ++ nl]> (files w))) |}.
Proof.
  intros Hstat Happ. unfold run. rewrite Hstat, Happ. reflexivity.
Qed.

(** C1, as the script behaves.  When the flash capacity is below the
    space already used, the script reports nothing: the filesystem size
    of line 51 is a negative multiple of 4096, the two scalar files and
    the partition table are written with it, and the run ends with
    status 0. *)
Theorem infeasible_capacity_table_written
    (tolerance_percentage flash_size_mb : Z) (pio_env pio_stderr : string)
    (w : world) (firmware_size_bytes app_size : Z) :
  stat w (firmware_path pio_env) = Some firmware_size_bytes ->
  app_partition_size_bytes firmware_size_bytes tolerance_percentage = Ok app_size ->
  flash_size_mb * 1024 * 1024 < current_used_flash app_size ->
  let used := current_used_flash app_size in
  let spiffs_size :=
    spiffs_partition_size_bytes (flash_size_mb * 1024 * 1024) used in
  let o := run tolerance_percentage flash_size_mb pio_env pio_stderr w in
  spiffs_size < 0 /\ spiffs_size mod 4096 = 0 /\
  exit_status o = 0 /\ uncaught o = None /\
  printed o = [pio_stderr; "Partition table created successfully."] /\
  final_files o !! offset_path = Some (hex used ++ nl) /\
  final_files o !! size_path = Some (str spiffs_size ++ nl) /\
  final_files o !! partition_table_path =
    Some (String.concat "" (partition_table app_size spiffs_size)).
Proof.
  intros Hstat Happ Hcap used spiffs_size o.
  pose proof (align_down_spec (flash_size_mb * 1024 * 1024 - used - 0xFFF)) as Hal.
  cbv zeta in Hal. fold (spiffs_partition_size_bytes (flash_size_mb * 1024 * 1024) used) in Hal.
  fold spiffs_size in Hal. destruct Hal as [Hmod Hle].
  split; [subst used; change 0xFFF with 4095 in Hle; lia|].
  split; [exact Hmod|].
  subst o.
  rewrite (run_with_firmware _ _ _ _ _ _ _ Hstat Happ). cbv zeta. simpl.
  fold used. fold spiffs_size.
  repeat split.
  - rewrite !lookup_insert_ne by discriminate. apply lookup_insert_eq.
  - rewrite lookup_insert_ne by discriminate. apply lookup_insert_eq.
  - apply lookup_insert_eq.
Qed.

(** C8. When there is no firmware file and the template is in place,
    the run ends with status 0, prints the message of line 28, and
    leaves the files as they were except for the partition table, which
    is now the template: neither scalar file is written. *)
Theorem missing_firmware_fallback
    (tolerance_percentage flash_size_mb : Z) (pio_env pio_stderr : string)
    (w : world) (template : string) :
  stat w (firmware_path pio_env) = None ->
  files w !! template_path = Some template ->
  let o := run tolerance_percentage flash_size_mb pio_env pio_stderr w in
  exit_status o = 0 /\ uncaught o = None /\
  printed o = [pio_stderr; no_firmware_message] /\
  final_files o = <[partition_table_path := template]> (files w) /\
  final_files o !! offset_path = files w !! offset_path /\
  final_files o !! size_path = files w !! size_path.
Proof.
  intros Hstat Htpl. cbv zeta. unfold run. rewrite Hstat, Htpl. simpl.
  repeat split; apply lookup_insert_ne; discriminate.
Qed.

(** The size the specification words has the two properties as well. *)
Lemma app_size_exact_aligned (firmware_size_bytes tolerance_percentage : Z) :
  0 <= firmware_size_bytes -> 0 <= tolerance_percentage ->
  app_size_exact firmware_size_bytes tolerance_percentage mod 4096 = 0 /\
  firmware_size_bytes <= app_size_exact firmware_size_bytes tolerance_percentage.
Proof.
  intros Hfw Htol. unfold app_size_exact.
  pose proof (align_up_spec
    (firmware_size_bytes + firmware_size_bytes * tolerance_percentage / 100)) as H.
  cbv zeta in H.
  assert (0 <= firmware_size_bytes * tolerance_percentage / 100)
    by (apply Z.div_pos; nia).
  lia.
Qed.

(** The two sizes are not always the same: 70/100 is a float just below
    0.7, the product with 43370 is a float just below 30359, and the
    size of line 34 is one block of 4096 bytes smaller. *)
Example app_size_float_margin :
  app_partition_size_bytes 43370 70 = Ok 73728 /\
  app_size_exact 43370 70 = 77824.
Proof. split; vm_compute; reflexivity. Qed.

End GeneratorFacts.

Section GeneratorRuns.

Import Generator GeneratorData.



(** C1 fails on the script: with a flash of 1 MiB and a firmware of
    2 MiB the capacity is below the used space, and the run still ends
    with status 0, no exception, and a partition table whose last row
    has a negative size. *)
Lemma infeasible_capacity_not_reported :
  let o := run 10 1 "esp32" "" built_2MiB in
  app_partition_size_bytes 2097152 10 = Ok 2310144 /\
  1 * 1024 * 1024
    < app_partition_offset + coredump_partition_size_bytes
      + nvs_partition_size_bytes + 2310144 /\
  exit_status o = 0 /\ uncaught o = None /\
  final_files o !! size_path = Some ("-1409024" ++ nl) /\
  final_files o !! partition_table_path =
    Some ("#Name,Type,SubType,Offset,Size,Flags" ++ nl
          ++ "app,app,factory,0x10000,0x234000," ++ nl
          ++ "coredump,data,coredump,,0x10000," ++ nl
          ++ "nvs,data,nvs,,0x3000," ++ nl
          ++ "littlefs,data,undefined,,-0x158000," ++ nl).
Proof.
  cbv zeta. repeat split; vm_compute; reflexivity.
Qed.

Lemma infeasible_capacity_table_written_witness :
  let o := run 10 1 "esp32" "" built_2MiB in
  (stat built_2MiB (firmware_path "esp32") = Some 2097152 /\
   app_partition_size_bytes 2097152 10 = Ok 2310144 /\
   1 * 1024 * 1024 < current_used_flash 2310144) /\
  spiffs_partition_size_bytes (1 * 1024 * 1024) (current_used_flash 2310144) < 0 /\
  exit_status o = 0.
Proof.
  assert (H1 : stat built_2MiB (firmware_path "esp32") = Some 2097152)
    by reflexivity.
  assert (H2 : app_partition_size_bytes 2097152 10 = Ok 2310144)
    by (vm_compute; reflexivity).
  assert (H3 : 1 * 1024 * 1024 < current_used_flash 2310144) by reflexivity.
  pose proof (infeasible_capacity_table_written 10 1 "esp32" "" built_2MiB
                2097152 2310144 H1 H2 H3) as H.
  cbv zeta in *. destruct H as (Hneg & _ & He & _).
  split; [repeat split; assumption|]. split; [exact Hneg|exact He].
Defined.

Lemma missing_firmware_fallback_witness :
  let o := run 10 4 "esp32" "" not_built in
  (stat not_built (firmware_path "esp32") = None /\
   files not_built !! template_path = Some template_text) /\
  exit_status o = 0 /\
  final_files o !! partition_table_path = Some template_text /\
  final_files o !! offset_path = None /\
  final_files o !! size_path = None.
Proof.
  assert (H1 : stat not_built (firmware_path "esp32") = None) by reflexivity.
  assert (H2 : files not_built !! template_path = Some template_text)
    by (vm_compute; reflexivity).
  pose proof (missing_firmware_fallback 10 4 "esp32" "" not_built
                template_text H1 H2) as H.
  cbv zeta in *. destruct H as (He & _ & _ & Hf & Ho & Hs).
  split; [split; assumption|]. split; [exact He|].
  rewrite Ho, Hs, Hf. split; [apply lookup_insert_eq|].
  split; vm_compute; reflexivity.
Defined.

End GeneratorRuns.

(** ** The eraser: resolving a name *)

Section Resolution.

Import Eraser EraserData.

(** A field that [int16] reads is not empty, so the script's test on
    the field lets it through. *)
Lemma int16_truthy (s : string) (n : Z) : int16 s = Ok n -> truthy s = true.
Proof. destruct s; [discriminate|reflexivity]. Qed.

(** One turn of the loop on a row with another name. *)
Lemma walk_other (offset : Z) (partition : row) (rest : list row)
    (partition_name name size_field offset_field : string) :
  partition !! "#Name" = Some name -> name <> partition_name ->
  partition !! "Size" = Some size_field ->
  partition !! "Offset" = Some offset_field ->
  walk offset (partition :: rest) partition_name =
  (offset ← (if truthy size_field
             then size ← int16 size_field; Ok (offset + size)
             else Ok offset);
   offset ← (if truthy offset_field
             then size ← int16 offset_field; Ok (offset + size)
             else Ok offset);
   walk offset rest partition_name).
Proof.
  intros Hname Hne Hsize Hoff. simpl. unfold getitem.
  rewrite Hname, Hsize, Hoff. simpl.
  destruct (String.eqb_spec name partition_name) as [|_]; [contradiction|].
  destruct (truthy size_field), (int16 size_field); simpl; try reflexivity.
Qed.

Lemma walk_match (offset : Z) (partition : row) (rest : list row)
    (partition_name : string) :
  partition !! "#Name" = Some partition_name ->
  walk offset (partition :: rest) partition_name = Ok offset.
Proof.
  intros Hname. simpl. unfold getitem. rewrite Hname. simpl.
  rewrite String.eqb_refl. reflexivity.
Qed.

(** C2. A row with another name that has both an [Offset] and a [Size]
    moves the running offset by the sum of the two; in the table
    [A(size 10), B(offset 5, size 20), C] the name [C] resolves to 35. *)
Theorem offset_and_size_both_added :
  (forall (offset : Z) (partition : row) (rest : list row)
          (partition_name name size_field offset_field : string)
          (size explicit : Z),
      partition !! "#Name" = Some name -> name <> partition_name ->
      partition !! "Size" = Some size_field -> int16 size_field = Ok size ->
      partition !! "Offset" = Some offset_field ->
      int16 offset_field = Ok explicit ->
      walk offset (partition :: rest) partition_name =
      walk (offset + size + explicit) rest partition_name) /\
  calculate_partition_offset ab5c_table "C" = Ok 35.
Proof.
  split.
  - intros offset partition rest partition_name name size_field offset_field
      size explicit Hname Hne Hsize Hs Hoff Ho.
    rewrite (walk_other _ _ _ _ _ _ _ Hname Hne Hsize Hoff).
    rewrite (int16_truthy _ _ Hs), (int16_truthy _ _ Ho), Hs, Ho.
    reflexivity.
  - vm_compute. reflexivity.
Qed.

Lemma offset_and_size_both_added_witness :
  walk 10 [mk_row "B" "data" "" "0x5" "0x14" ""; mk_row "C" "data" "" "" "0x1e" ""] "C"
  = walk 35 [mk_row "C" "data" "" "" "0x1e" ""] "C".
Proof.
  apply (proj1 offset_and_size_both_added 10 _ _ "C" "B" "0x14" "0x5" 20 5);
    solve [vm_compute; reflexivity | discriminate].
Defined.


Lemma walk_sequential (partition_name : string) (size : Z)
    (post pre : list (string * Z)) :
  forall (partitions : list row) (offset : Z),
    Forall2 sequential_entry partitions (pre ++ (partition_name, size) :: post) ->
    partition_name ∉ pre.*1 ->
    walk offset partitions partition_name = Ok (offset + total pre.*2).
Proof.
  induction pre as [|[name sz] pre IH]; intros partitions offset HF Hnot.
  - apply Forall2_cons_inv_r in HF as (p & rest & (Hname & _) & _ & ->).
    rewrite (walk_match _ _ _ _ Hname). simpl. f_equal. lia.
  - rewrite fmap_cons in Hnot. apply not_elem_of_cons in Hnot as [Hne Hnot].
    rewrite <- app_comm_cons in HF.
    apply Forall2_cons_inv_r in HF
      as (p & rest & (Hname & Hoff & s & Hsize & Hs) & HF & ->).
    cbn [fst snd] in *.
    assert (Hne' : name <> partition_name) by congruence.
    rewrite (walk_other _ _ _ _ name s "" Hname Hne' Hsize Hoff).
    rewrite (int16_truthy _ _ Hs), Hs. cbn.
    rewrite (IH _ _ HF Hnot). f_equal. unfold total. cbn. lia.
Qed.

Lemma partition_size_sequential (partition_name : string) (size : Z)
    (post pre : list (string * Z)) :
  forall partitions : list row,
    Forall2 sequential_entry partitions (pre ++ (partition_name, size) :: post) ->
    partition_name ∉ pre.*1 ->
    partition_size partitions partition_name = Ok size.
Proof.
  unfold partition_size.
  induction pre as [|[name sz] pre IH]; intros partitions HF Hnot.
  - apply Forall2_cons_inv_r in HF
      as (p & rest & (Hname & _ & s & Hsize & Hs) & _ & ->).
    simpl in *. unfold getitem. rewrite Hname. simpl.
    rewrite String.eqb_refl, Hsize. simpl. exact Hs.
  - rewrite fmap_cons in Hnot. apply not_elem_of_cons in Hnot as [Hne Hnot].
    rewrite <- app_comm_cons in HF.
    apply Forall2_cons_inv_r in HF as (p & rest & (Hname & _) & HF & ->).
    cbn [fst snd] in *. cbn. unfold getitem. rewrite Hname. cbn.
    destruct (String.eqb_spec name partition_name) as [->|_]; [congruence|].
    exact (IH _ HF Hnot).
Qed.

(** C3. In a table where every row has no [Offset] and a [Size], a name
    in the table resolves to the sum of the sizes of the rows before its
    first row, and the length to erase is the size of that row itself;
    in [A(10), B(20), C(30)] the name [C] gives offset 30 and size 30. *)
Theorem sequential_table_resolution :
  (forall (partitions : list row) (pre post : list (string * Z))
          (partition_name : string) (size : Z),
      Forall2 sequential_entry partitions
        (pre ++ (partition_name, size) :: post) ->
      partition_name ∉ pre.*1 ->
      calculate_partition_offset partitions partition_name = Ok (total pre.*2) /\
      partition_size partitions partition_name = Ok size) /\
  calculate_partition_offset abc_table "C" = Ok 30 /\
  partition_size abc_table "C" = Ok 30.
Proof.
  split.
  - intros partitions pre post partition_name size HF Hnot. split.
    + unfold calculate_partition_offset.
      rewrite (walk_sequential _ _ _ _ _ 0 HF Hnot). f_equal.
    + exact (partition_size_sequential _ _ _ _ _ HF Hnot).
  - split; vm_compute; reflexivity.
Qed.

Lemma sequential_table_resolution_witness :
  Forall2 sequential_entry abc_table ([("A", 10); ("B", 20)] ++ [("C", 30)]) /\
  calculate_partition_offset abc_table "C" = Ok (total [10; 20]) /\
  partition_size abc_table "C" = Ok 30.
Proof.
  assert (HF : Forall2 sequential_entry abc_table
                 ([("A", 10); ("B", 20)] ++ [("C", 30)])).
  { repeat constructor; eexists; split; vm_compute; reflexivity. }
  split; [exact HF|].
  apply (proj1 sequential_table_resolution abc_table
           [("A", 10); ("B", 20)] [] "C" 30 HF).
  intros Hin. repeat (apply elem_of_cons in Hin as [Hin|Hin]; [discriminate|]).
  inversion Hin.
Defined.

(** *** A name that is not in the table *)

(** The loop never returns an offset for a name that no row has. *)
Lemma walk_absent (partition_name : string) (partitions : list row) :
  (forall p, p ∈ partitions -> p !! "#Name" <> Some partition_name) ->
  forall offset, exists e, walk offset partitions partition_name = Raise e.
Proof.
  induction partitions as [|p rest IH]; intros Habs offset; simpl; [eauto|].
  unfold getitem.
  destruct (p !! "#Name") as [name|] eqn:Hname; simpl; [|eauto].
  destruct (String.eqb_spec name partition_name) as [->|_].
  { exfalso. apply (Habs p); [left|exact Hname]. }
  destruct (p !! "Size") as [size_field|]; simpl; [|eauto].
  destruct (if truthy size_field then _ else _) as [offset1|]; simpl; [|eauto].
  destruct (p !! "Offset") as [offset_field|]; simpl; [|eauto].
  destruct (if truthy offset_field then _ else _) as [offset2|]; simpl; [|eauto].
  apply IH. intros q Hq. apply Habs. right. exact Hq.
Qed.


Lemma walk_absent_well_formed (partition_name : string) (partitions : list row) :
  (forall p, p ∈ partitions -> p !! "#Name" <> Some partition_name) ->
  Forall well_formed_row partitions ->
  forall offset,
    walk offset partitions partition_name =
    Raise (ValueError (partition_name ++ " partition not found in the CSV file")).
Proof.
  induction partitions as [|p rest IH]; intros Habs Hwf offset; [reflexivity|].
  apply Forall_cons in Hwf as [([name Hname] & Hsize & Hoff) Hwf].
  destruct Hsize as (size_field & Hsize & Hs).
  destruct Hoff as (offset_field & Hoff & Ho).
  assert (Hne : name <> partition_name).
  { intros ->. apply (Habs p); [left|exact Hname]. }
  rewrite (walk_other _ _ _ _ _ _ _ Hname Hne Hsize Hoff).
  assert (Hrest : forall q, q ∈ rest -> q !! "#Name" <> Some partition_name).
  { intros q Hq. apply Habs. right. exact Hq. }
  destruct Hs as [->|[n Hn]], Ho as [->|[m Hm]]; simpl;
    rewrite ?(int16_truthy _ _ Hn), ?(int16_truthy _ _ Hm), ?Hn, ?Hm; simpl;
    apply (IH Hrest Hwf).
Qed.

End Resolution.

(** ** The eraser: a whole run *)

Section Runs.

Import Eraser EraserData.

(** C4. When no row of the table has the requested name, the run ends
    with status 1 and every file is as it was; for a table whose
    [Size] and [Offset] fields are empty or hexadecimal numbers, what
    is printed is the "partition not found" message with the name. *)
Theorem absent_name_not_found (w : world)
    (script csv_file binary_file partition_name : string)
    (partitions : list row) :
  tables w !! csv_file = Some partitions ->
  (forall p, p ∈ partitions -> p !! "#Name" <> Some partition_name) ->
  let o := main [script; csv_file; binary_file; partition_name] w in
  exit_status o = 1 /\ final_disk o = disk w /\
  (Forall well_formed_row partitions ->
   printed o = [partition_name ++ " partition not found in the CSV file"] /\
   uncaught o = None).
Proof.
  intros Htab Habs. cbv zeta. unfold main, main_try, parse_csv.
  rewrite Htab. cbn [mbind result_bind]. unfold calculate_partition_offset.
  split; [|split].
  - destruct (walk_absent _ _ Habs 0) as [e ->]. destruct e; reflexivity.
  - destruct (walk_absent _ _ Habs 0) as [e ->]. destruct e; reflexivity.
  - intros Hwf. rewrite (walk_absent_well_formed _ _ Habs Hwf 0).
    split; reflexivity.
Qed.

(** With a field that is not a number before the end of the table, the
    run of an absent name still ends with status 1 and writes nothing,
    and what it prints is the error of [int]. *)
Example absent_name_bad_field :
  main ["cleanPartition.py"; "bad.csv"; "firmware.bin"; "otadata"] read_only_machine =
  {| exit_status := 1;
     printed := ["invalid literal for int() with base 16: '64K'"];
     uncaught := None;
     final_disk := disk read_only_machine |}.
Proof. vm_compute. reflexivity. Qed.

(** Up to the first row with the name, line 56 reads the rows that the
    loop of line 15 has read. *)
Lemma next_size_after_walk (partition_name : string) (p : row)
    (post pre : list row) :
  (forall q, q ∈ pre -> q !! "#Name" <> Some partition_name) ->
  p !! "#Name" = Some partition_name ->
  forall offset resolved,
    walk offset (pre ++ p :: post) partition_name = Ok resolved ->
    next_size (pre ++ p :: post) partition_name = getitem p "Size".
Proof.
  intros Hpre Hp. induction pre as [|q pre IH]; intros offset resolved Hwalk.
  - simpl. unfold getitem. rewrite Hp. simpl.
    rewrite String.eqb_refl. reflexivity.
  - rewrite <- app_comm_cons in *. cbn [walk next_size] in *.
    unfold getitem in *.
    destruct (q !! "#Name") as [name|] eqn:Hname;
      cbn [mbind result_bind] in *; [|discriminate].
    destruct (String.eqb_spec name partition_name) as [->|_].
    { exfalso. apply (Hpre q); [left|exact Hname]. }
    destruct (q !! "Size") as [size_field|];
      cbn [mbind result_bind] in Hwalk; [|discriminate].
    destruct (if truthy size_field then _ else _) as [offset1|];
      cbn [mbind result_bind] in Hwalk; [|discriminate].
    destruct (q !! "Offset") as [offset_field|];
      cbn [mbind result_bind] in Hwalk; [|discriminate].
    destruct (if truthy offset_field then _ else _) as [offset2|];
      cbn [mbind result_bind] in Hwalk; [|discriminate].
    apply (IH ltac:(intros q' Hq'; apply Hpre; right; exact Hq') offset2 resolved Hwalk).
Qed.

(** C10. When the first row with the requested name has an empty
    [Size] and the offset of the name has been resolved, line 56
    raises the [ValueError] of the empty literal: the run prints it,
    ends with status 1, and no file is touched. *)
Theorem empty_size_not_erased (w : world)
    (script csv_file binary_file partition_name : string)
    (pre post : list row) (p : row) (resolved : Z) :
  tables w !! csv_file = Some (pre ++ p :: post)%list ->
  (forall q, q ∈ pre -> q !! "#Name" <> Some partition_name) ->
  p !! "#Name" = Some partition_name ->
  p !! "Size" = Some "" ->
  calculate_partition_offset (pre ++ p :: post)%list partition_name = Ok resolved ->
  partition_size (pre ++ p :: post)%list partition_name =
    Raise (ValueError "invalid literal for int() with base 16: ''") /\
  main [script; csv_file; binary_file; partition_name] w =
  {| exit_status := 1;
     printed := ["invalid literal for int() with base 16: ''"];
     uncaught := None;
     final_disk := disk w |}.
Proof.
  intros Htab Hpre Hname Hsize Hoff.
  assert (Hps : partition_size (pre ++ p :: post)%list partition_name =
                Raise (ValueError "invalid literal for int() with base 16: ''")).
  { unfold partition_size.
    rewrite (next_size_after_walk _ _ _ _ Hpre Hname 0 resolved Hoff).
    unfold getitem. rewrite Hsize. reflexivity. }
  split; [exact Hps|].
  unfold main, main_try, parse_csv. rewrite Htab. cbn [mbind result_bind].
  rewrite Hoff, Hps. reflexivity.
Qed.

(** C5 on the script: when [dd] reports a failure, [clear_partition]
    prints the error and returns, and so the run ends with status 0. *)
Theorem dd_failure_exits_zero (w : world)
    (script csv_file binary_file partition_name : string)
    (partitions : list row) (offset size : Z) :
  tables w !! csv_file = Some partitions ->
  calculate_partition_offset partitions partition_name = Ok offset ->
  partition_size partitions partition_name = Ok size ->
  returncode (dd (disk w) binary_file offset size).1 <> 0 ->
  let o := main [script; csv_file; binary_file; partition_name] w in
  exit_status o = 0 /\
  last (printed o) =
    Some ("Error executing dd: " ++ stderr (dd (disk w) binary_file offset size).1).
Proof.
  intros Htab Hoff Hsize Hrc. cbv zeta.
  unfold main, main_try, parse_csv. rewrite Htab. cbn [mbind result_bind].
  rewrite Hoff, Hsize. cbn [mbind result_bind]. unfold clear_partition.
  destruct (dd (disk w) binary_file offset size) as [result disk'].
  cbn [fst] in *.
  destruct (Z.eqb_spec (returncode result) 0) as [Heq|_]; [contradiction|].
  split; reflexivity.
Qed.

End Runs.

(** ** The eraser: the bytes written *)

Section Erase.

Import Eraser EraserData.

(** Inside the image, the write is a splice: the bytes before the
    range, the zero bytes, the bytes after the range. *)
Lemma pwrite_zeros_inside (old : list byte) (offset size : Z) :
  0 <= offset -> 0 <= size -> offset + size <= Z.of_nat (length old) ->
  pwrite_zeros old offset size =
  (take (Z.to_nat offset) old ++ replicate (Z.to_nat size) x00
     ++ drop (Z.to_nat offset + Z.to_nat size) old)%list.
Proof.
  intros Ho Hs Hlen. unfold pwrite_zeros, zeros.
  replace (Z.to_nat (offset - Z.of_nat (length old))) with 0%nat by lia.
  rewrite app_nil_r, Z2Nat.inj_add by lia. reflexivity.
Qed.

Lemma splice_length (old : list byte) (o s : nat) :
  (o + s <= length old)%nat ->
  length (take o old ++ replicate s x00 ++ drop (o + s) old) = length old.
Proof.
  intros H. rewrite !length_app, length_take, length_replicate, length_drop. lia.
Qed.

Lemma splice_lookup_inside (old : list byte) (o s i : nat) :
  (o + s <= length old)%nat -> (o <= i < o + s)%nat ->
  (take o old ++ replicate s x00 ++ drop (o + s) old)%list !! i = Some x00.
Proof.
  intros H Hi.
  rewrite lookup_app_r; rewrite length_take_le by lia; [|lia].
  rewrite lookup_app_l by (rewrite length_replicate; lia).
  apply lookup_replicate_2. lia.
Qed.

Lemma splice_lookup_outside (old : list byte) (o s i : nat) :
  (o + s <= length old)%nat -> ~ (o <= i < o + s)%nat ->
  (take o old ++ replicate s x00 ++ drop (o + s) old)%list !! i = old !! i.
Proof.
  intros H Hi. destruct (Nat.lt_ge_cases i o) as [Hlt|Hge].
  - rewrite lookup_app_l by (rewrite length_take_le; lia).
    apply lookup_take_lt. exact Hlt.
  - rewrite lookup_app_r; rewrite length_take_le by lia; [|lia].
    rewrite lookup_app_r; rewrite length_replicate; [|lia].
    rewrite lookup_drop. f_equal. lia.
Qed.

(** C9. For a writable image and a range inside it, [clear_partition]
    leaves an image of the same length whose bytes are zero inside
    [offset, offset+size) and are the old bytes outside; no other file
    changes.  With [offset = 0x73000] and [size = 0x3000] the range is
    [0x73000, 0x76000). *)
Theorem clear_partition_zeroes_range (disk : gmap string file)
    (binary_file : string) (image : file) (offset size : Z) :
  disk !! binary_file = Some image -> writable image = true ->
  0 <= offset -> 0 <= size ->
  offset + size <= Z.of_nat (length (content image)) ->
  exists image',
    (clear_partition disk binary_file offset size).2 !! binary_file = Some image' /\
    length (content image') = length (content image) /\
    (forall i : nat, offset <= Z.of_nat i < offset + size ->
                     content image' !! i = Some x00) /\
    (forall i : nat, ~ (offset <= Z.of_nat i < offset + size) ->
                     content image' !! i = content image !! i) /\
    (forall path, path <> binary_file ->
                  (clear_partition disk binary_file offset size).2 !! path
                  = disk !! path).
Proof.
  intros Hfile Hw Ho Hs Hlen. unfold clear_partition, dd.
  destruct (Z.ltb_spec offset 0) as [|_]; [lia|].
  destruct (Z.ltb_spec size 0) as [|_]; [lia|].
  rewrite Hfile. cbn [orb from_option id]. rewrite Hw.
  cbn [returncode Z.eqb negb snd].
  eexists. split; [apply lookup_insert_eq|]. cbn [content].
  assert (Hnat : (Z.to_nat offset + Z.to_nat size <= length (content image))%nat)
    by lia.
  destruct (Z.eqb_spec size 0) as [->|Hpos].
  - split; [reflexivity|]. split; [intros i Hi; lia|].
    split; [reflexivity|]. intros path Hne. apply lookup_insert_ne. congruence.
  - rewrite pwrite_zeros_inside by assumption.
    split; [apply splice_length; exact Hnat|].
    split; [intros i Hi; apply splice_lookup_inside; [exact Hnat|lia]|].
    split; [intros i Hi; apply splice_lookup_outside; [exact Hnat|lia]|].
    intros path Hne. apply lookup_insert_ne. congruence.
Qed.

End Erase.

(** ** Runs of the eraser on a generated table *)

Section EraserRuns.

Import Eraser EraserData.



Ltac field_is_ok :=
  eexists; split;
  [ vm_compute; reflexivity
  | first [ left; reflexivity | right; eexists; vm_compute; reflexivity ] ].

Ltac other_names :=
  let p := fresh "p" in
  let Hp := fresh "Hp" in
  intros p Hp;
  repeat (apply elem_of_cons in Hp as [->|Hp]; [vm_compute; congruence|]);
  inversion Hp.

Lemma generated_table_well_formed : Forall well_formed_row generated_table.
Proof.
  repeat constructor; try field_is_ok; eexists; vm_compute; reflexivity.
Qed.

Lemma absent_name_not_found_witness :
  let o := main ["cleanPartition.py"; "partitions.csv"; "firmware.bin"; "otadata"]
             read_only_machine in
  exit_status o = 1 /\ final_disk o = disk read_only_machine /\
  printed o = ["otadata partition not found in the CSV file"] /\
  uncaught o = None.
Proof.
  assert (Htab : tables read_only_machine !! "partitions.csv" = Some generated_table)
    by (vm_compute; reflexivity).
  assert (Habs : forall p, p ∈ generated_table -> p !! "#Name" <> Some "otadata")
    by other_names.
  pose proof (absent_name_not_found read_only_machine "cleanPartition.py"
                "partitions.csv" "firmware.bin" "otadata" generated_table
                Htab Habs) as H.
  cbv zeta in *. destruct H as (He & Hd & Hp).
  destruct (Hp generated_table_well_formed) as [Hp1 Hp2].
  repeat split; assumption.
Defined.

Lemma empty_size_not_erased_witness :
  calculate_partition_offset table_without_nvs_size "nvs" = Ok 0x12d000 /\
  main ["cleanPartition.py"; "broken.csv"; "firmware.bin"; "nvs"] read_only_machine =
  {| exit_status := 1;
     printed := ["invalid literal for int() with base 16: ''"];
     uncaught := None;
     final_disk := disk read_only_machine |}.
Proof.
  assert (Hoff : calculate_partition_offset table_without_nvs_size "nvs" = Ok 0x12d000)
    by (vm_compute; reflexivity).
  split; [exact Hoff|].
  apply (empty_size_not_erased read_only_machine "cleanPartition.py" "broken.csv"
           "firmware.bin" "nvs"
           [mk_row "app" "app" "factory" "0x10000" "0x10d000" "";
            mk_row "coredump" "data" "coredump" "" "0x10000" ""]
           [mk_row "littlefs" "data" "undefined" "" "0x2cf000" ""]
           (mk_row "nvs" "data" "nvs" "" "" "") 0x12d000).
  - vm_compute. reflexivity.
  - other_names.
  - vm_compute. reflexivity.
  - vm_compute. reflexivity.
  - exact Hoff.
Defined.

Lemma dd_failure_exits_zero_witness :
  let o := main ["cleanPartition.py"; "partitions.csv"; "firmware.bin"; "nvs"]
             read_only_machine in
  returncode (dd (disk read_only_machine) "firmware.bin" 0x12d000 0x3000).1 = 1 /\
  exit_status o = 0 /\
  last (printed o) =
    Some "Error executing dd: dd: failed to open 'firmware.bin': Permission denied" /\
  final_disk o = disk read_only_machine.
Proof.
  assert (Hrc : returncode (dd (disk read_only_machine) "firmware.bin"
                              0x12d000 0x3000).1 = 1)
    by (vm_compute; reflexivity).
  pose proof (dd_failure_exits_zero read_only_machine "cleanPartition.py"
                "partitions.csv" "firmware.bin" "nvs" generated_table
                0x12d000 0x3000
                ltac:(vm_compute; reflexivity) ltac:(vm_compute; reflexivity)
                ltac:(vm_compute; reflexivity) ltac:(rewrite Hrc; discriminate))
    as H.
  cbv zeta in *. destruct H as [He Hl].
  split; [exact Hrc|]. split; [exact He|]. split; [|vm_compute; reflexivity].
  rewrite Hl. vm_compute. reflexivity.
Defined.

Lemma clear_partition_zeroes_range_witness :
  exists image',
    (clear_partition {[ "firmware.bin" := blank_flash ]} "firmware.bin"
       0x73000 0x3000).2 !! "firmware.bin" = Some image' /\
    length (content image') = length (content blank_flash) /\
    (forall i : nat, 0x73000 <= Z.of_nat i < 0x73000 + 0x3000 ->
                     content image' !! i = Some x00) /\
    (forall i : nat, ~ (0x73000 <= Z.of_nat i < 0x73000 + 0x3000) ->
                     content image' !! i = content blank_flash !! i).
Proof.
  destruct (clear_partition_zeroes_range {[ "firmware.bin" := blank_flash ]}
              "firmware.bin" blank_flash 0x73000 0x3000)
    as (image' & H1 & H2 & H3 & H4 & _).
  - apply lookup_singleton_eq.
  - reflexivity.
  - lia.
  - lia.
  - unfold blank_flash. cbn [content]. rewrite length_replicate. lia.
  - exists image'. repeat split; assumption.
Defined.

End EraserRuns.

(** ** Hexadecimal text, written and read back *)

Section HexText.

Lemma list_ascii_of_string_append (s t : string) :
  list_ascii_of_string (s ++ t)
  = (list_ascii_of_string s ++ list_ascii_of_string t)%list.
Proof. induction s as [|c s IH]; simpl; [reflexivity|]. f_equal. exact IH. Qed.

(** One character of a number: the character is known, so the two tests
    of [scan_digits] on it are computed. *)
Ltac digit_step :=
  cbn [HexadecimalString.NilEmpty.string_of_uint list_ascii_of_string scan_digits];
  match goal with
  | |- context [Ascii.eqb ?c "_"] =>
      let b := eval vm_compute in (Ascii.eqb c "_") in
      change (Ascii.eqb c "_") with b
  end;
  match goal with
  | |- context [digit_value ?c] =>
      let v := eval vm_compute in (digit_value c) in
      change (digit_value c) with v
  end; cbv iota.

(** [scan_digits] reads the digits the way [Pos.of_hex_uint_acc] does. *)
Lemma scan_digits_acc (d : Hexadecimal.uint) :
  forall acc : positive,
    scan_digits (Zpos acc) false
      (list_ascii_of_string (HexadecimalString.NilEmpty.string_of_uint d))
    = Some (Zpos (Pos.of_hex_uint_acc d acc)).
Proof.
  induction d; intros acc;
    [reflexivity
    | digit_step; cbn [Pos.of_hex_uint_acc]; rewrite <- IHd; f_equal; lia ..].
Qed.

Lemma scan_digits_0 (d : Hexadecimal.uint) :
  scan_digits 0 false
    (list_ascii_of_string (HexadecimalString.NilEmpty.string_of_uint d))
  = Some (Z.of_N (Pos.of_hex_uint d)).
Proof.
  induction d;
    [reflexivity
    | digit_step; cbn [Pos.of_hex_uint];
      first [exact IHd | apply scan_digits_acc] ..].
Qed.

Lemma lstrip_no_space (l : list ascii) :
  Forall (fun c => is_space c = false) l -> lstrip l = l.
Proof. intros [|c l' Hc _]; simpl; [reflexivity|]. rewrite Hc. reflexivity. Qed.

Lemma strip_no_space (l : list ascii) :
  Forall (fun c => is_space c = false) l -> strip l = l.
Proof.
  intros H. unfold strip. rewrite (lstrip_no_space l H).
  rewrite lstrip_no_space by (apply Forall_rev; exact H).
  apply rev_involutive.
Qed.

Lemma hex_digits_no_space (d : Hexadecimal.uint) :
  Forall (fun c => is_space c = false)
    (list_ascii_of_string (HexadecimalString.NilEmpty.string_of_uint d)).
Proof. induction d; simpl; constructor; auto. Qed.

Lemma scan_magnitude_hex_digits (p : positive) :
  scan_magnitude ("0"%char :: "x"%char :: list_ascii_of_string (hex_digits p))
  = Some (Zpos p).
Proof.
  unfold hex_digits.
  pose proof (scan_digits_0 (Pos.to_hex_uint p)) as Hscan.
  rewrite HexadecimalPos.Unsigned.of_to in Hscan.
  pose proof (HexadecimalPos.Unsigned.to_uint_nonnil p) as Hnil.
  destruct (Pos.to_hex_uint p); [contradiction| ..];
    cbn [list_ascii_of_string HexadecimalString.NilEmpty.string_of_uint] in *;
    exact Hscan.
Qed.

(** What [hex] writes, [int(., 16)] reads. *)
Lemma int16_hex (n : Z) : int16 (hex n) = Ok n.
Proof.
  unfold int16, hex. destruct n as [|p|p].
  - reflexivity.
  - rewrite list_ascii_of_string_append.
    change (list_ascii_of_string "0x") with ["0"%char; "x"%char].
    rewrite strip_no_space
      by (repeat constructor; apply hex_digits_no_space).
    cbn [app scan_signed]. rewrite scan_magnitude_hex_digits. reflexivity.
  - rewrite list_ascii_of_string_append.
    change (list_ascii_of_string "-0x") with ["-"%char; "0"%char; "x"%char].
    rewrite strip_no_space
      by (repeat constructor; apply hex_digits_no_space).
    cbn [app scan_signed]. rewrite scan_magnitude_hex_digits. reflexivity.
Qed.

(** X1. Every size the generator writes is read back by the eraser as
    the same number: [int(hex(n), 16)] is [n] for every integer, negative
    ones too, and [int("0x" + format(n, "x"), 16)] is [n] for every
    integer that is not negative. *)
Theorem hex_text_round_trip (n : Z) :
  int16 (hex n) = Ok n /\
  int16 ("0x" ++ format_x (Z.abs n)) = Ok (Z.abs n).
Proof.
  split; [apply int16_hex|].
  destruct n as [|p|p]; [reflexivity| |]; exact (int16_hex (Zpos p)).
Qed.

End HexText.

(** ** The eraser: the rows before the first match *)

Section FirstMatch.

Import Eraser EraserData EraserSpec.

Lemma field_reads_step (field : string) (n offset : Z) :
  field_reads field n ->
  (if truthy field then size ← int16 field; Ok (offset + size) else Ok offset)
  = Ok (offset + n).
Proof.
  intros [[-> ->]|H].
  - simpl. f_equal. lia.
  - rewrite (int16_truthy _ _ H), H. reflexivity.
Qed.

(** The loop over described rows, up to the first row with the name:
    the rows after it are not read. *)
Lemma walk_prefix (partition_name : string) (p : row) (post : list row)
    (ds : list (string * Z * Z)) :
  p !! "#Name" = Some partition_name ->
  forall (pre : list row) (offset : Z),
    Forall2 entry_fields pre ds ->
    partition_name ∉ ds.*1.*1 ->
    walk offset (pre ++ p :: post) partition_name = Ok (offset + advance ds).
Proof.
  intros Hp. induction ds as [|[[name size] off] ds IH]; intros pre offset HF Hnot.
  - apply Forall2_nil_inv_r in HF as ->. cbn [app].
    rewrite (walk_match _ _ _ _ Hp). unfold advance. cbn. f_equal. lia.
  - apply Forall2_cons_inv_r in HF
      as (q & pre' & (Hname & (s & Hs & Hsr) & (o & Ho & Hor)) & HF & ->).
    rewrite !fmap_cons in Hnot. apply not_elem_of_cons in Hnot as [Hne Hnot].
    cbn [fst snd] in *.
    assert (Hne' : name <> partition_name) by congruence.
    rewrite <- app_comm_cons.
    rewrite (walk_other _ _ _ _ name s o Hname Hne' Hs Ho).
    rewrite (field_reads_step _ _ _ Hsr). cbn [mbind result_bind].
    rewrite (field_reads_step _ _ _ Hor). cbn [mbind result_bind].
    rewrite (IH _ _ HF Hnot). f_equal. unfold advance. cbn. lia.
Qed.

Lemma next_size_match (p : row) (rest : list row) (partition_name : string) :
  p !! "#Name" = Some partition_name ->
  next_size (p :: rest) partition_name = getitem p "Size".
Proof.
  intros Hp. cbn [next_size]. unfold getitem. rewrite Hp. cbn.
  rewrite String.eqb_refl. reflexivity.
Qed.

Lemma next_size_other (p : row) (rest : list row) (partition_name name : string) :
  p !! "#Name" = Some name -> name <> partition_name ->
  next_size (p :: rest) partition_name = next_size rest partition_name.
Proof.
  intros Hp Hne. cbn [next_size]. unfold getitem. rewrite Hp. cbn.
  destruct (String.eqb_spec name partition_name) as [|_]; [contradiction|].
  reflexivity.
Qed.

Lemma next_size_prefix (partition_name : string) (p : row) (post : list row)
    (ds : list (string * Z * Z)) :
  p !! "#Name" = Some partition_name ->
  forall pre : list row,
    Forall2 entry_fields pre ds ->
    partition_name ∉ ds.*1.*1 ->
    next_size (pre ++ p :: post) partition_name = getitem p "Size".
Proof.
  intros Hp. induction ds as [|[[name size] off] ds IH]; intros pre HF Hnot.
  - apply Forall2_nil_inv_r in HF as ->. cbn [app].
    apply next_size_match. exact Hp.
  - apply Forall2_cons_inv_r in HF as (q & pre' & (Hname & _) & HF & ->).
    rewrite !fmap_cons in Hnot. apply not_elem_of_cons in Hnot as [Hne Hnot].
    cbn [fst snd] in *. rewrite <- app_comm_cons.
    assert (Hne' : name <> partition_name) by congruence.
    rewrite (next_size_other _ _ _ name Hname Hne').
    exact (IH _ HF Hnot).
Qed.

(** X2. Whatever follows the first row with the requested name (rows
    with the same name again, rows with fields that are not numbers, rows
    without the columns), the offset is the sum of every [Size] and every
    [Offset] of the rows before that row, an empty field counting for 0,
    and the length is what [int] makes of that row's own [Size]; the
    row's own [Offset] plays no part. *)
Theorem first_match_resolution (pre post : list row) (p : row)
    (ds : list (string * Z * Z)) (partition_name size_field : string) :
  Forall2 entry_fields pre ds ->
  partition_name ∉ ds.*1.*1 ->
  p !! "#Name" = Some partition_name ->
  p !! "Size" = Some size_field ->
  calculate_partition_offset (pre ++ p :: post) partition_name = Ok (advance ds) /\
  partition_size (pre ++ p :: post) partition_name = int16 size_field.
Proof.
  intros HF Hnot Hp Hs. split.
  - unfold calculate_partition_offset.
    rewrite (walk_prefix _ _ _ _ Hp _ 0 HF Hnot). reflexivity.
  - unfold partition_size. rewrite (next_size_prefix _ _ _ _ Hp _ HF Hnot).
    unfold getitem. rewrite Hs. reflexivity.
Qed.

Ltac entry_is_described :=
  split; [vm_compute; reflexivity|];
  split; eexists;
  (split; [vm_compute; reflexivity
          | first [left; split; reflexivity | right; vm_compute; reflexivity]]).

Ltac not_in_names :=
  let Hin := fresh "Hin" in
  cbn [fmap list_fmap fst snd]; intros Hin;
  repeat (apply elem_of_cons in Hin as [Hin|Hin]; [discriminate|]);
  inversion Hin.

Lemma first_match_resolution_witness :
  calculate_partition_offset
    ([mk_row "app" "app" "factory" "0x10000" "0x10d000" "";
      mk_row "coredump" "data" "coredump" "" "0x10000" ""]
     ++ mk_row "nvs" "data" "nvs" "0x9000" "0x3000" ""
     :: [mk_row "nvs" "data" "nvs" "" "zz" ""; ∅]) "nvs"
  = Ok (0x10d000 + 0x10000 + (0x10000 + 0 + 0)) /\
  partition_size
    ([mk_row "app" "app" "factory" "0x10000" "0x10d000" "";
      mk_row "coredump" "data" "coredump" "" "0x10000" ""]
     ++ mk_row "nvs" "data" "nvs" "0x9000" "0x3000" ""
     :: [mk_row "nvs" "data" "nvs" "" "zz" ""; ∅]) "nvs"
  = int16 "0x3000".
Proof.
  apply (first_match_resolution _ _ _
           [("app", 0x10d000, 0x10000); ("coredump", 0x10000, 0)]).
  - apply List.Forall2_cons; [entry_is_described|].
    apply List.Forall2_cons; [entry_is_described|]. apply List.Forall2_nil.
  - not_in_names.
  - vm_compute. reflexivity.
  - vm_compute. reflexivity.
Defined.





(** X4. When the rows have no column called [#Name] (a header spelled
    otherwise), the first row already raises a [KeyError], which [main]
    does not catch: nothing is printed, the status is 1 and no file is
    written. *)
Theorem missing_name_column (w : world)
    (script csv_file binary_file partition_name : string)
    (q : row) (rest : list row) :
  tables w !! csv_file = Some (q :: rest) ->
  q !! "#Name" = None ->
  main [script; csv_file; binary_file; partition_name] w =
  {| exit_status := 1;
     printed := [];
     uncaught := Some (KeyError "#Name");
     final_disk := disk w |}.
Proof.
  intros Htab Hq.
  unfold main, main_try, parse_csv. rewrite Htab. cbn [mbind result_bind].
  unfold calculate_partition_offset. cbn [walk]. unfold getitem.
  rewrite Hq. reflexivity.
Qed.

Lemma missing_name_column_witness :
  main ["cleanPartition.py"; "spaced.csv"; "firmware.bin"; "nvs"] writable_machine =
  {| exit_status := 1;
     printed := [];
     uncaught := Some (KeyError "#Name");
     final_disk := disk writable_machine |}.
Proof.
  apply (missing_name_column writable_machine "cleanPartition.py" "spaced.csv"
           "firmware.bin" "nvs"
           (list_to_map [("# Name", "nvs"); ("Type", "data"); ("SubType", "nvs");
                         ("Offset", ""); ("Size", "0x3000"); ("Flags", "")]) []).
  - unfold writable_machine. cbn [tables].
    rewrite lookup_insert_ne by discriminate. apply lookup_singleton_eq.
  - vm_compute. reflexivity.
Defined.

End FirstMatch.

(** ** The eraser: what a run may change *)

Section WholeRuns.

Import Eraser EraserData EraserSpec.

(** [dd] writes to its output file only. *)
Lemma dd_other_files (disk : gmap string file) (out_file path : string)
    (seek count : Z) :
  path <> out_file -> (dd disk out_file seek count).2 !! path = disk !! path.
Proof.
  intros Hne. unfold dd.
  destruct ((seek <? 0) || (count <? 0))%Z; [reflexivity|].
  destruct (writable _); [|reflexivity].
  cbn [snd]. apply lookup_insert_ne. congruence.
Qed.


Lemma clear_partition_disk (disk : gmap string file) (binary_file : string)
    (offset size : Z) :
  (clear_partition disk binary_file offset size).2
  = (dd disk binary_file offset size).2.
Proof.
  unfold clear_partition. destruct (dd disk binary_file offset size) as [r d].
  destruct (negb _); reflexivity.
Qed.

(** X5. Whatever the arguments and the table, a run that ends with a
    status other than 0 has written nothing, and no run writes to a file
    other than the one named by its second argument. *)
Theorem main_changes_only_image (w : world) (argv : list string) :
  (exit_status (main argv w) <> 0 -> final_disk (main argv w) = disk w) /\
  (forall path, argv !! 2%nat <> Some path ->
                final_disk (main argv w) !! path = disk w !! path).
Proof.
  unfold main.
  destruct argv as [|a0 [|a1 [|a2 [|a3 [|a4 rest]]]]]; try (split; reflexivity).
  destruct (main_try w a1 a2 a3) as [[out disk']|e] eqn:Htry.
  - split; [intros H; contradiction H; reflexivity|].
    intros path Hpath. cbn in Hpath |- *.
    unfold main_try in Htry.
    destruct (parse_csv w a1); cbn [mbind result_bind] in Htry; [|discriminate].
    destruct (calculate_partition_offset _ _) as [off|];
      cbn [mbind result_bind] in Htry; [|discriminate].
    destruct (partition_size _ _) as [sz|];
      cbn [mbind result_bind] in Htry; [|discriminate].
    injection Htry as Hcp.
    assert (Hd : disk' = (clear_partition (disk w) a2 off sz).2)
      by (rewrite Hcp; reflexivity).
    rewrite Hd, clear_partition_disk. apply dd_other_files. congruence.
  - destruct e; split; reflexivity.
Qed.

Lemma main_changes_only_image_witness :
  final_disk
    (main ["cleanPartition.py"; "partitions.csv"; "firmware.bin"; "otadata"]
       read_only_machine) = disk read_only_machine /\
  final_disk
    (main ["cleanPartition.py"; "partitions.csv"; "firmware.bin"; "nvs"]
       writable_machine) !! "bootloader.bin"
  = disk writable_machine !! "bootloader.bin".
Proof.
  split.
  - apply (proj1 (main_changes_only_image read_only_machine
                    ["cleanPartition.py"; "partitions.csv"; "firmware.bin"; "otadata"])).
    vm_compute. discriminate.
  - apply (proj2 (main_changes_only_image writable_machine
                    ["cleanPartition.py"; "partitions.csv"; "firmware.bin"; "nvs"])).
    cbn [lookup list_lookup]. discriminate.
Defined.

(** X6. With any number of arguments other than three after the name of
    the script, the run prints the usage line and ends with status 1
    before it opens any file. *)
Theorem wrong_argument_count (w : world) (argv : list string) :
  length argv <> 4%nat ->
  main argv w =
  {| exit_status := 1; printed := [usage_line]; uncaught := None;
     final_disk := disk w |}.
Proof.
  intros Hlen.
  destruct argv as [|a0 [|a1 [|a2 [|a3 [|a4 rest]]]]]; try reflexivity.
  contradiction Hlen. reflexivity.
Qed.

Lemma wrong_argument_count_witness :
  main ["cleanPartition.py"; "partitions.csv"; "nvs"] read_only_machine =
  {| exit_status := 1; printed := [usage_line]; uncaught := None;
     final_disk := disk read_only_machine |}.
Proof.
  apply (wrong_argument_count read_only_machine
           ["cleanPartition.py"; "partitions.csv"; "nvs"]).
  simpl. lia.
Defined.

(** *** Writing past the end, and writing twice *)

Lemma pwrite_zeros_nat (old : list byte) (offset size : Z) :
  0 <= offset -> 0 <= size ->
  pwrite_zeros old offset size =
  (take (Z.to_nat offset)
     (old ++ replicate (Z.to_nat offset - length old) x00)
   ++ replicate (Z.to_nat size) x00
   ++ drop (Z.to_nat offset + Z.to_nat size) old)%list.
Proof.
  intros Ho Hs. unfold pwrite_zeros, zeros.
  rewrite Z2Nat.inj_add by lia.
  replace (Z.to_nat (offset - Z.of_nat (length old)))
    with (Z.to_nat offset - length old)%nat by lia.
  reflexivity.
Qed.

Lemma pwrite_zeros_length (old : list byte) (offset size : Z) :
  0 <= offset -> 0 <= size ->
  length (pwrite_zeros old offset size)
  = (length old `max` (Z.to_nat offset + Z.to_nat size))%nat.
Proof.
  intros Ho Hs. rewrite pwrite_zeros_nat by assumption.
  rewrite !length_app, length_take, !length_app, !length_replicate, length_drop.
  lia.
Qed.

(** Every byte after the write: before the range the old byte, or a zero
    byte where the image was shorter; in the range a zero byte; after
    the range the old byte. *)
Lemma pwrite_zeros_lookup (old : list byte) (offset size : Z) (i : nat) :
  0 <= offset -> 0 <= size ->
  pwrite_zeros old offset size !! i =
  if decide (i < Z.to_nat offset)%nat then
    if decide (i < length old)%nat then old !! i else Some x00
  else if decide (i < Z.to_nat offset + Z.to_nat size)%nat then Some x00
  else old !! i.
Proof.
  intros Ho Hs. rewrite pwrite_zeros_nat by assumption.
  set (o := Z.to_nat offset). set (s := Z.to_nat size).
  assert (Hlen : length (take o (old ++ replicate (o - length old) x00)) = o).
  { rewrite length_take, length_app, length_replicate. lia. }
  destruct (decide (i < o)%nat) as [Hio|Hio].
  - rewrite lookup_app_l by lia. rewrite lookup_take_lt by lia.
    destruct (decide (i < length old)%nat) as [Hil|Hil].
    + apply lookup_app_l. exact Hil.
    + rewrite lookup_app_r by lia. apply lookup_replicate_2. lia.
  - rewrite lookup_app_r by lia. rewrite Hlen.
    destruct (decide (i < o + s)%nat) as [His|His].
    + rewrite lookup_app_l by (rewrite length_replicate; lia).
      apply lookup_replicate_2. lia.
    + rewrite lookup_app_r by (rewrite length_replicate; lia).
      rewrite length_replicate, lookup_drop. f_equal. lia.
Qed.


Lemma dd_written (disk : gmap string file) (binary_file : string)
    (image : file) (offset size : Z) :
  disk !! binary_file = Some image -> writable image = true ->
  0 <= offset -> 0 <= size ->
  dd disk binary_file offset size =
  ({| returncode := 0; stderr := "" |},
   <[binary_file :=
       {| writable := true;
          content := if (size =? 0)%Z then content image
                     else pwrite_zeros (content image) offset size |}]> disk).
Proof.
  intros Hfile Hw Ho Hs. unfold dd.
  destruct (Z.ltb_spec offset 0) as [|_]; [lia|].
  destruct (Z.ltb_spec size 0) as [|_]; [lia|].
  rewrite Hfile. cbn [orb from_option id]. rewrite Hw. reflexivity.
Qed.



Lemma clear_partition_written (disk : gmap string file) (binary_file : string)
    (image : file) (offset size : Z) :
  disk !! binary_file = Some image -> writable image = true ->
  0 <= offset -> 0 <= size ->
  clear_partition disk binary_file offset size =
  ([dd_command_line binary_file offset size; "NVS partition cleared successfully"],
   <[binary_file :=
       {| writable := true;
          content := if (size =? 0)%Z then content image
                     else pwrite_zeros (content image) offset size |}]> disk).
Proof.
  intros Hfile Hw Ho Hs. unfold clear_partition.
  rewrite (dd_written _ _ _ _ _ Hfile Hw Ho Hs). reflexivity.
Qed.

(** X7. A run on a writable image, with a resolved offset that is not
    negative and a positive size, ends with status 0 after printing the
    [dd] command and the line "NVS partition cleared successfully",
    whatever the name of the partition.  In the image it leaves, the bytes
    of [offset, offset+size) are zero and every other byte of the old
    image is as it was.  A range that reaches past the end of the image is
    not refused: the image grows to [offset + size], with zero bytes from
    its old end on. *)
Theorem erase_run_writes_zeros (w : world)
    (script csv_file binary_file partition_name : string)
    (partitions : list row) (image : file) (offset size : Z) :
  tables w !! csv_file = Some partitions ->
  calculate_partition_offset partitions partition_name = Ok offset ->
  partition_size partitions partition_name = Ok size ->
  disk w !! binary_file = Some image -> writable image = true ->
  0 <= offset -> 0 < size ->
  exit_status (main [script; csv_file; binary_file; partition_name] w) = 0 /\
  uncaught (main [script; csv_file; binary_file; partition_name] w) = None /\
  printed (main [script; csv_file; binary_file; partition_name] w)
    = [dd_command_line binary_file offset size;
       "NVS partition cleared successfully"] /\
  exists image',
    final_disk (main [script; csv_file; binary_file; partition_name] w)
      !! binary_file = Some image' /\
    Z.of_nat (length (content image'))
      = Z.max (Z.of_nat (length (content image))) (offset + size) /\
    (forall i : nat, offset <= Z.of_nat i < offset + size ->
                     content image' !! i = Some x00) /\
    (forall i : nat, (i < length (content image))%nat ->
                     ~ (offset <= Z.of_nat i < offset + size) ->
                     content image' !! i = content image !! i) /\
    (forall i : nat, Z.of_nat (length (content image)) <= Z.of_nat i < offset ->
                     content image' !! i = Some x00).
Proof.
  intros Htab Hoff Hsize Hfile Hw Ho Hs.
  unfold main, main_try, parse_csv. rewrite Htab. cbn [mbind result_bind].
  rewrite Hoff, Hsize. cbn [mbind result_bind].
  rewrite (clear_partition_written _ _ _ _ _ Hfile Hw) by lia.
  cbn [exit_status uncaught printed final_disk].
  split; [reflexivity|]. split; [reflexivity|]. split; [reflexivity|].
  eexists. split; [apply lookup_insert_eq|]. cbn [content].
  destruct (Z.eqb_spec size 0) as [|_]; [lia|].
  split; [rewrite pwrite_zeros_length by lia; lia|].
  repeat split; intros i; intros; rewrite pwrite_zeros_lookup by lia;
    repeat case_decide; try reflexivity; lia.
Qed.

Lemma erase_run_writes_zeros_witness :
  exit_status
    (main ["cleanPartition.py"; "partitions.csv"; "firmware.bin"; "nvs"]
       writable_machine) = 0 /\
  exists image',
    final_disk
      (main ["cleanPartition.py"; "partitions.csv"; "firmware.bin"; "nvs"]
         writable_machine) !! "firmware.bin" = Some image' /\
    Z.of_nat (length (content image')) = 0x400000 /\
    (forall i : nat, 0x12d000 <= Z.of_nat i < 0x12d000 + 0x3000 ->
                     content image' !! i = Some x00).
Proof.
  destruct (erase_run_writes_zeros writable_machine "cleanPartition.py"
              "partitions.csv" "firmware.bin" "nvs" generated_table flash_image
              0x12d000 0x3000)
    as (He & _ & _ & image' & Hf & Hl & Hz & _).
  - unfold writable_machine. cbn [tables]. apply lookup_insert_eq.
  - vm_compute. reflexivity.
  - vm_compute. reflexivity.
  - unfold writable_machine. cbn [disk]. apply lookup_singleton_eq.
  - reflexivity.
  - lia.
  - lia.
  - split; [exact He|]. exists image'. split; [exact Hf|]. split; [|exact Hz].
    rewrite Hl. unfold flash_image. cbn [content]. rewrite length_replicate. lia.
Defined.


End WholeRuns.

(** ** The generator: every run *)

Section GeneratorRunsAll.

Import Generator GeneratorData Rounded.

Lemma app_partition_size_shape (firmware_size_bytes tolerance_percentage app : Z) :
  app_partition_size_bytes firmware_size_bytes tolerance_percentage = Ok app ->
  exists margin,
    app = Z.land (firmware_size_bytes + margin + 0xFFF) (Z.lnot 0xFFF).
Proof.
  unfold app_partition_size_bytes.
  destruct (tolerance_fraction _) as [x|]; [|discriminate].
  destruct (float_of_int _) as [f|]; [|discriminate].
  cbn [mbind result_bind].
  destruct (int_of_float _) as [margin|]; [|discriminate].
  cbn [mbind result_bind]. intros [= <-]. eauto.
Qed.

Lemma app_partition_size_multiple (firmware_size_bytes tolerance_percentage app : Z) :
  app_partition_size_bytes firmware_size_bytes tolerance_percentage = Ok app ->
  app mod 4096 = 0.
Proof.
  intros H. destruct (app_partition_size_shape _ _ _ H) as [margin ->].
  apply (align_up_spec (firmware_size_bytes + margin)).
Qed.

(** The capacity and the used space are both multiples of 4096, so
    rounding their difference less 4095 down takes off one whole block. *)
Lemma spiffs_size_exact
    (firmware_size_bytes tolerance_percentage flash_size_mb app : Z) :
  app_partition_size_bytes firmware_size_bytes tolerance_percentage = Ok app ->
  spiffs_partition_size_bytes (flash_size_mb * 1024 * 1024) (current_used_flash app)
  = flash_size_mb * 1024 * 1024 - current_used_flash app - 4096 /\
  exists k, flash_size_mb * 1024 * 1024 - current_used_flash app = 4096 * k.
Proof.
  intros H. pose proof (app_partition_size_multiple _ _ _ H) as Hmod.
  unfold spiffs_partition_size_bytes, current_used_flash,
    coredump_partition_size_bytes, app_partition_offset, nvs_partition_size_bytes.
  rewrite land_lnot_0xFFF. change 0xFFF with 4095.
  change 0x10000 with 65536. change 0x3000 with 12288.
  pose proof (Z.div_mod app 4096 ltac:(lia)) as Hdm.
  set (q := app / 4096) in *.
  split; [|exists (flash_size_mb * 256 - 35 - q); lia].
  replace (flash_size_mb * 1024 * 1024 - (65536 + 65536 + 12288 + app) - 4095)
    with ((flash_size_mb * 256 - 35 - q - 1) * 4096 + 1) by lia.
  rewrite Z.div_add_l by lia. change (1 / 4096) with 0. lia.
Qed.

(** X9. Whenever line 34 returns, the filesystem size of line 51 is the
    flash capacity less the used space less exactly 4096: one block of
    the flash is always left out.  So the filesystem size is positive
    exactly when the capacity is at least the used space plus 8192. *)
Theorem filesystem_one_block_less
    (firmware_size_bytes tolerance_percentage flash_size_mb app : Z) :
  app_partition_size_bytes firmware_size_bytes tolerance_percentage = Ok app ->
  spiffs_partition_size_bytes (flash_size_mb * 1024 * 1024) (current_used_flash app)
  = flash_size_mb * 1024 * 1024 - current_used_flash app - 4096 /\
  (0 < spiffs_partition_size_bytes (flash_size_mb * 1024 * 1024)
         (current_used_flash app)
   <-> current_used_flash app + 8192 <= flash_size_mb * 1024 * 1024).
Proof.
  intros H. destruct (spiffs_size_exact _ _ flash_size_mb _ H) as [Heq [k Hk]].
  split; [exact Heq|]. rewrite Heq. lia.
Qed.

Lemma filesystem_one_block_less_witness :
  app_partition_size_bytes 1000000 10 = Ok 1101824 /\
  spiffs_partition_size_bytes (4 * 1024 * 1024) (current_used_flash 1101824)
  = 4 * 1024 * 1024 - current_used_flash 1101824 - 4096 /\
  (0 < spiffs_partition_size_bytes (4 * 1024 * 1024) (current_used_flash 1101824)
   <-> current_used_flash 1101824 + 8192 <= 4 * 1024 * 1024).
Proof.
  assert (H : app_partition_size_bytes 1000000 10 = Ok 1101824)
    by (vm_compute; reflexivity).
  split; [exact H|]. exact (filesystem_one_block_less 1000000 10 4 1101824 H).
Defined.

Lemma app_partition_size_total (firmware_size_bytes tolerance_percentage : Z) :
  0 <= firmware_size_bytes < 2 ^ 63 -> 0 <= tolerance_percentage <= 100 ->
  exists app,
    app_partition_size_bytes firmware_size_bytes tolerance_percentage = Ok app.
Proof.
  intros Hfw Htol. unfold app_partition_size_bytes, tolerance_fraction.
  destruct (truediv_100_small tolerance_percentage Htol) as (x & -> & Hx).
  destruct (float_of_int_small firmware_size_bytes Hfw) as (f & -> & Hf).
  destruct (int_of_float_small _ _ _ (mul_small f x Hf Hx)) as (margin & Hm).
  cbn [mbind result_bind]. rewrite Hm. cbn [mbind result_bind]. eauto.
Qed.

(** X10. With a tolerance of 0 the margin is 0: the application size is
    the firmware size rounded up to a multiple of 4096, less than 4096
    bytes above it. *)
Theorem app_partition_size_no_tolerance (firmware_size_bytes : Z) :
  0 <= firmware_size_bytes < 2 ^ 63 ->
  app_partition_size_bytes firmware_size_bytes 0
  = Ok (Z.land (firmware_size_bytes + 0xFFF) (Z.lnot 0xFFF)) /\
  Z.land (firmware_size_bytes + 0xFFF) (Z.lnot 0xFFF) < firmware_size_bytes + 4096.
Proof.
  intros Hfw. split.
  - unfold app_partition_size_bytes, tolerance_fraction.
    change (truediv 0 100) with (Ok (S754_zero false)).
    destruct (float_of_int_small firmware_size_bytes Hfw) as (f & -> & Hf).
    cbn [mbind result_bind]. unfold mul.
    destruct f as [s|s| |s m e]; simpl in Hf; try contradiction;
      cbn; rewrite Z.add_0_r; reflexivity.
  - pose proof (align_up_spec firmware_size_bytes) as H. cbv zeta in H. lia.
Qed.

Lemma app_partition_size_no_tolerance_witness :
  app_partition_size_bytes 1000000 0 = Ok 1003520 /\ 1003520 < 1000000 + 4096.
Proof.
  exact (app_partition_size_no_tolerance 1000000 ltac:(lia)).
Defined.

(** X11. With a firmware file of any size a file can have and a tolerance
    from 0 to 100, the run raises nothing and ends with status 0, whatever
    the flash size: it writes the used space in hexadecimal, the
    filesystem size in decimal and the table, and the filesystem size it
    writes is the capacity less the used space less 4096, also when that
    is negative. *)
Theorem run_with_firmware_succeeds (tolerance_percentage flash_size_mb : Z)
    (pio_env pio_stderr : string) (w : world) (firmware_size_bytes : Z) :
  stat w (firmware_path pio_env) = Some firmware_size_bytes ->
  0 <= firmware_size_bytes < 2 ^ 63 -> 0 <= tolerance_percentage <= 100 ->
  exists app_size,
    app_partition_size_bytes firmware_size_bytes tolerance_percentage = Ok app_size /\
    exit_status (run tolerance_percentage flash_size_mb pio_env pio_stderr w) = 0 /\
    uncaught (run tolerance_percentage flash_size_mb pio_env pio_stderr w) = None /\
    final_files (run tolerance_percentage flash_size_mb pio_env pio_stderr w)
      !! offset_path = Some (hex (current_used_flash app_size) ++ nl) /\
    final_files (run tolerance_percentage flash_size_mb pio_env pio_stderr w)
      !! size_path =
      Some (str (flash_size_mb * 1024 * 1024 - current_used_flash app_size - 4096)
            ++ nl) /\
    final_files (run tolerance_percentage flash_size_mb pio_env pio_stderr w)
      !! partition_table_path =
      Some (String.concat ""
              (partition_table app_size
                 (flash_size_mb * 1024 * 1024 - current_used_flash app_size - 4096))).
Proof.
  intros Hstat Hfw Htol.
  destruct (app_partition_size_total _ _ Hfw Htol) as [app Happ].
  exists app. split; [exact Happ|].
  rewrite (run_with_firmware _ flash_size_mb _ pio_stderr _ _ _ Hstat Happ).
  cbv zeta. rewrite (proj1 (spiffs_size_exact _ _ flash_size_mb _ Happ)).
  cbn [exit_status uncaught final_files].
  split; [reflexivity|]. split; [reflexivity|].
  split; [|split].
  - rewrite !lookup_insert_ne by discriminate. apply lookup_insert_eq.
  - rewrite lookup_insert_ne by discriminate. apply lookup_insert_eq.
  - apply lookup_insert_eq.
Qed.

Lemma run_with_firmware_succeeds_witness :
  exit_status (run 10 4 "esp32" "" built_2MiB) = 0 /\
  final_files (run 10 4 "esp32" "" built_2MiB) !! offset_path
    = Some ("0x257000" ++ nl) /\
  final_files (run 10 4 "esp32" "" built_2MiB) !! size_path
    = Some ("1736704" ++ nl).
Proof.
  destruct (run_with_firmware_succeeds 10 4 "esp32" "" built_2MiB 2097152)
    as (app & Happ & He & _ & Ho & Hs & _).
  - reflexivity.
  - lia.
  - lia.
  - assert (Hc : app_partition_size_bytes 2097152 10 = Ok 2310144)
      by (vm_compute; reflexivity).
    rewrite Hc in Happ. injection Happ as <-.
    split; [exact He|]. split; [exact Ho|exact Hs].
Defined.

(** X12. Whatever its inputs, a run writes to no path other than the
    table, the offset file and the size file (the template and the
    configuration are never changed), and a run that ends with a status
    other than 0 has written nothing at all. *)
Theorem run_writes_only_outputs (tolerance_percentage flash_size_mb : Z)
    (pio_env pio_stderr : string) (w : world) :
  (exit_status (run tolerance_percentage flash_size_mb pio_env pio_stderr w) <> 0 ->
   final_files (run tolerance_percentage flash_size_mb pio_env pio_stderr w)
   = files w) /\
  (forall path,
      path <> partition_table_path -> path <> offset_path -> path <> size_path ->
      final_files (run tolerance_percentage flash_size_mb pio_env pio_stderr w)
        !! path = files w !! path).
Proof.
  unfold run.
  destruct (stat w (firmware_path pio_env)) as [fw|].
  - destruct (app_partition_size_bytes fw tolerance_percentage) as [app|e].
    + cbn. split; [intros H; contradiction H; reflexivity|].
      intros path H1 H2 H3. rewrite !lookup_insert_ne by congruence. reflexivity.
    + split; reflexivity.
  - destruct (files w !! template_path) as [t|].
    + cbn. split; [intros H; contradiction H; reflexivity|].
      intros path H1 _ _. apply lookup_insert_ne. congruence.
    + split; reflexivity.
Qed.

Lemma run_writes_only_outputs_witness :
  final_files (run 10 4 "esp32" "" {| stat := fun _ => None; files := ∅ |}) = ∅ /\
  final_files (run 10 4 "esp32" "" built_2MiB) !! template_path
  = files built_2MiB !! template_path.
Proof.
  split.
  - apply (proj1 (run_writes_only_outputs 10 4 "esp32" ""
                    {| stat := fun _ => None; files := ∅ |})).
    vm_compute. discriminate.
  - apply (proj2 (run_writes_only_outputs 10 4 "esp32" "" built_2MiB));
      discriminate.
Defined.

End GeneratorRunsAll.

(** ** The eraser on the table of the generator *)

Section GeneratedTable.

Import Eraser EraserSpec Bridge.

Lemma append_cons (c : ascii) (s t : string) :
  String c s ++ t = String c (s ++ t).
Proof. reflexivity. Qed.

Lemma append_assoc (s t u : string) : (s ++ t) ++ u = s ++ (t ++ u).
Proof.
  induction s as [|c s IH]; [reflexivity|].
  rewrite !append_cons, IH. reflexivity.
Qed.

(** The lines of lines 60 to 66 are the header and the four rows of
    fields, each with commas between its fields. *)
Lemma partition_table_lines (app_size spiffs_size : Z) :
  Generator.partition_table app_size spiffs_size
  = csv_line <$> (header_fields :: generated_fields app_size spiffs_size).
Proof.
  unfold Generator.partition_table, generated_fields, csv_line.
  cbn [fmap list_fmap String.concat]. rewrite !append_assoc. reflexivity.
Qed.

Lemma dict_row_lookups (name type subtype offset size flags : string) :
  dict_row [name; type; subtype; offset; size; flags] !! "#Name" = Some name /\
  dict_row [name; type; subtype; offset; size; flags] !! "Offset" = Some offset /\
  dict_row [name; type; subtype; offset; size; flags] !! "Size" = Some size.
Proof.
  change (dict_row [name; type; subtype; offset; size; flags])
    with (mk_row name type subtype offset size flags). unfold mk_row.
  split; [apply lookup_insert_eq|].
  split; rewrite !lookup_insert_ne by discriminate; apply lookup_insert_eq.
Qed.

Lemma dict_row_entry (name type subtype offset size flags : string) (s o : Z) :
  field_reads size s -> field_reads offset o ->
  entry_fields (dict_row [name; type; subtype; offset; size; flags]) (name, s, o).
Proof.
  intros Hs Ho.
  destruct (dict_row_lookups name type subtype offset size flags) as (H1 & H2 & H3).
  split; [exact H1|]. split; eauto.
Qed.

Ltac no_such_name :=
  let Hin := fresh "Hin" in
  cbn [fmap list_fmap fst snd]; intros Hin;
  repeat (apply elem_of_cons in Hin as [Hin|Hin]; [discriminate|]);
  inversion Hin.

(** X13. The table the generator writes, read back as rows of fields
    under the columns of its header: for every application size and
    every filesystem size, also a negative one, the eraser resolves
    [coredump], [nvs] and [littlefs] to the offsets at which the sequence
    of the table puts them ([littlefs] at the used space, the number of
    the offset file) and to the sizes the generator wrote.  [app], the
    first row, resolves to offset 0: its own [Offset] of 0x10000 is not
    counted. *)
Theorem eraser_on_generated_table (app_size spiffs_size : Z) :
  Generator.partition_table app_size spiffs_size
    = csv_line <$> (header_fields :: generated_fields app_size spiffs_size) /\
  (calculate_partition_offset (generated_rows app_size spiffs_size) "app" = Ok 0 /\
   partition_size (generated_rows app_size spiffs_size) "app" = Ok app_size) /\
  (calculate_partition_offset (generated_rows app_size spiffs_size) "coredump"
     = Ok (Generator.app_partition_offset + app_size) /\
   partition_size (generated_rows app_size spiffs_size) "coredump"
     = Ok Generator.coredump_partition_size_bytes) /\
  (calculate_partition_offset (generated_rows app_size spiffs_size) "nvs"
     = Ok (Generator.app_partition_offset + app_size
           + Generator.coredump_partition_size_bytes) /\
   partition_size (generated_rows app_size spiffs_size) "nvs"
     = Ok Generator.nvs_partition_size_bytes) /\
  (calculate_partition_offset (generated_rows app_size spiffs_size) "littlefs"
     = Ok (Generator.current_used_flash app_size) /\
   partition_size (generated_rows app_size spiffs_size) "littlefs"
     = Ok spiffs_size).
Proof.
  split; [apply partition_table_lines|].
  unfold generated_rows, generated_fields. cbn [fmap list_fmap].
  set (r1 := dict_row ("app" :: _)). set (r2 := dict_row ("coredump" :: _)).
  set (r3 := dict_row ("nvs" :: _)). set (r4 := dict_row ("littlefs" :: _)).
  assert (E1 : entry_fields r1 ("app", app_size, 0x10000))
    by (apply dict_row_entry; right; [apply int16_hex|reflexivity]).
  assert (E2 : entry_fields r2 ("coredump", 0x10000, 0))
    by (apply dict_row_entry; [right|left]; split; reflexivity).
  assert (E3 : entry_fields r3 ("nvs", 0x3000, 0))
    by (apply dict_row_entry; [right|left]; split; reflexivity).
  pose proof (dict_row_lookups "app" "app" "factory"
                ("0x" ++ format_x Generator.app_partition_offset)
                (hex app_size) "") as (N1 & _ & S1).
  pose proof (dict_row_lookups "coredump" "data" "coredump" ""
                ("0x" ++ format_x Generator.coredump_partition_size_bytes) "")
    as (N2 & _ & S2).
  pose proof (dict_row_lookups "nvs" "data" "nvs" ""
                ("0x" ++ format_x Generator.nvs_partition_size_bytes) "")
    as (N3 & _ & S3).
  pose proof (dict_row_lookups "littlefs" "data" "undefined" ""
                (hex spiffs_size) "") as (N4 & _ & S4).
  fold r1 in N1, S1. fold r2 in N2, S2. fold r3 in N3, S3. fold r4 in N4, S4.
  unfold calculate_partition_offset, partition_size.
  pose proof (List.Forall2_nil entry_fields) as F0.
  assert (F1 : Forall2 entry_fields [r1] [("app", app_size, 0x10000)])
    by exact (List.Forall2_cons _ _ E1 F0).
  assert (F2 : Forall2 entry_fields [r1; r2]
                 [("app", app_size, 0x10000); ("coredump", 0x10000, 0)])
    by exact (List.Forall2_cons _ _ E1 (List.Forall2_cons _ _ E2 F0)).
  assert (F3 : Forall2 entry_fields [r1; r2; r3]
                 [("app", app_size, 0x10000); ("coredump", 0x10000, 0);
                  ("nvs", 0x3000, 0)])
    by exact (List.Forall2_cons _ _ E1
                (List.Forall2_cons _ _ E2 (List.Forall2_cons _ _ E3 F0))).
  pose proof (walk_prefix "app" r1 [r2; r3; r4] [] N1 [] 0 F0
                ltac:(no_such_name)) as W1.
  pose proof (next_size_prefix "app" r1 [r2; r3; r4] [] N1 [] F0
                ltac:(no_such_name)) as P1.
  pose proof (walk_prefix "coredump" r2 [r3; r4] _ N2 _ 0 F1
                ltac:(no_such_name)) as W2.
  pose proof (next_size_prefix "coredump" r2 [r3; r4] _ N2 _ F1
                ltac:(no_such_name)) as P2.
  pose proof (walk_prefix "nvs" r3 [r4] _ N3 _ 0 F2 ltac:(no_such_name)) as W3.
  pose proof (next_size_prefix "nvs" r3 [r4] _ N3 _ F2 ltac:(no_such_name)) as P3.
  pose proof (walk_prefix "littlefs" r4 [] _ N4 _ 0 F3 ltac:(no_such_name)) as W4.
  pose proof (next_size_prefix "littlefs" r4 [] _ N4 _ F3 ltac:(no_such_name)) as P4.
  cbn [app] in W1, P1, W2, P2, W3, P3, W4, P4.
  rewrite W1, P1, W2, P2, W3, P3, W4, P4.
  unfold getitem. rewrite S1, S2, S3, S4. cbn [mbind result_bind].
  rewrite !int16_hex.
  unfold advance, Generator.current_used_flash, Generator.app_partition_offset,
    Generator.coredump_partition_size_bytes, Generator.nvs_partition_size_bytes.
  cbn [foldr fst snd].
  repeat split; try reflexivity; f_equal; lia.
Qed.

End GeneratedTable.
